(** * kb_expenses: category assignment and statement loading (run.py)

    A shallow embedding of [run.py] and the properties of its two classes,
    [CategoryAssigner] and [StatementData].

    Python values are modelled as follows.
    - A call either returns a value or raises: [outcome].
    - Characters are 8-bit codes ([ascii]); the statement is decoded from a
      single-byte encoding, so a decoded character is one code.
    - The regular-expression library [re] is an interface ([ReEngine]); the
      results about the rule loops hold for every implementation of it.
      [sre] implements the interface for a fragment of Python's pattern
      syntax and is used where a claim is about the meaning of patterns.
    - Amounts are numbers of the library ([Numeric]): their parsing and
      their sum are the library's, and results hold for every instance.
      [Decimal] is the instance of the concrete runs.
    - [pd.read_csv] is modelled on the lines of the file; a [DataFrame] is
      a record of typed columns of equal length.
    - Frames are objects in a store, so that a write into one frame can be
      told apart from a write into another.

    Limits of the model, stated again where they apply: patterns outside
    the [sre] fragment, quoted fields and the type conversion of
    all-numeric columns in [read_csv], a table with no row, and the range
    of the library's timestamps. *)

From Stdlib Require Import ZArith String Ascii List Bool Lia OrdersEx Sorted.
From stdpp Require Import base option list strings gmap.

Local Open Scope Z_scope.
Local Open Scope nat_scope.

(** ** Outcomes of a call *)

(** The exceptions the modelled code can raise. *)
Inductive exn : Type :=
| re_error                      (* re.error: the pattern does not compile *)
| TypeError
| KeyError (key : string)
| IndexError
| ValueError
| ParserError                   (* pandas.errors.ParserError *)
| EmptyDataError.               (* pandas.errors.EmptyDataError *)

Inductive outcome (A : Type) : Type :=
| Return (a : A)
| Raise (e : exn).
Arguments Return {A} a.
Arguments Raise {A} e.

Global Instance outcome_ret : MRet outcome := fun A a => Return a.
Global Instance outcome_bind : MBind outcome := fun A B f m =>
  match m with
  | Return a => f a
  | Raise e => Raise e
  end.

(** A value held in a cell of the statement: a [str], or the float [nan]
    that [read_csv] stores for a missing field. *)
Inductive pyval : Type :=
| PyStr (s : string)
| PyNaN.

(** ** The interface of the [re] module *)

(** [re.match(pattern, string)] is [re._compile(pattern).match(string)]:
    the pattern is compiled first, which raises [re.error] when it is
    malformed, and the compiled pattern is then matched at the start of
    the string. *)
Class ReEngine : Type := {
  pattern : Type;
  re_compile : string -> option pattern;      (* [None]: raises re.error *)
  pattern_match : pattern -> string -> bool;  (* [.match(s) is not None] *)
}.

Section Matcher.
Context {E : ReEngine}.

(** The truth value of [re.match(regex, string)]: a match object is always
    true, [None] is false. A second argument that is not a [str] raises
    [TypeError], after the pattern has been compiled. *)
Definition re_match (regex : string) (text : pyval) : outcome bool :=
  match re_compile regex with
  | None => Raise re_error
  | Some p =>
      match text with
      | PyStr s => Return (pattern_match p s)
      | PyNaN => Raise TypeError
      end
  end.

(** ** class CategoryAssigner *)

(** An entry of the regex map: the tuple [(regex, name, category)]. *)
Definition rule : Type := string * string * string.

Definition rule_regex (r : rule) : string := r.1.1.
Definition rule_name (r : rule) : string := r.1.2.
Definition rule_category (r : rule) : string := r.2.

Record CategoryAssigner : Type := mkCategoryAssigner {
  _regex_map : list rule;
}.

(** [CategoryAssigner.__init__] *)
Definition __init__ (regex_map : list rule) : CategoryAssigner :=
  {| _regex_map := regex_map |}.

(** [CategoryAssigner.from_json]. The argument is the value that
    [json.load(f)] returns for the file: a list of dicts from strings to
    strings (the format the docstring fixes). A dict without one of the
    three keys raises [KeyError]; the keys are read in the order [name],
    [regex], [category]. No pattern is compiled here. *)
Definition getitem (item : gmap string string) (key : string) : outcome string :=
  match item !! key with
  | Some v => Return v
  | None => Raise (KeyError key)
  end.

Fixpoint from_json_loop (items : list (gmap string string))
    (regex_map : list rule) : outcome (list rule) :=
  match items with
  | [] => Return regex_map
  | item :: items' =>
      name ← getitem item "name";
      regex ← getitem item "regex";
      category ← getitem item "category";
      from_json_loop items' (regex_map ++ [(regex, name, category)])
  end.

Definition from_json (document : list (gmap string string))
    : outcome CategoryAssigner :=
  regex_map ← from_json_loop document [];
  Return (__init__ regex_map).

(** [CategoryAssigner.get_category]: the [for] loop over [self._regex_map]. *)
Definition get_category (self : CategoryAssigner) (counterparty : pyval)
    : outcome string :=
  (fix loop (regex_map : list rule) : outcome string :=
     match regex_map with
     | [] => Return "unknown category"
     | (regex, name, category) :: rest =>
         m ← re_match regex counterparty;
         if m : bool then Return category else loop rest
     end) (_regex_map self).

(** [CategoryAssigner.get_name]: the same loop, returning the name. *)
Definition get_name (self : CategoryAssigner) (counterparty : pyval)
    : outcome string :=
  (fix loop (regex_map : list rule) : outcome string :=
     match regex_map with
     | [] => Return "unknown name"
     | (regex, name, category) :: rest =>
         m ← re_match regex counterparty;
         if m : bool then Return name else loop rest
     end) (_regex_map self).

(** *** Vocabulary of the statements about the rule loops *)

(** The pattern of the rule compiles. *)
Definition valid_rule (r : rule) : Prop := is_Some (re_compile (rule_regex r)).

(** The rule's pattern compiles and matches at the start of [s]. *)
Definition rule_matches (r : rule) (s : string) : bool :=
  match re_compile (rule_regex r) with
  | Some p => pattern_match p s
  | None => false
  end.

(** [i] is the position of the first rule that matches [s]. *)
Definition first_match (rules : list rule) (s : string) (i : nat) (r : rule)
    : Prop :=
  rules !! i = Some r /\ rule_matches r s = true /\
  forall j r', j < i -> rules !! j = Some r' -> rule_matches r' s = false.

Definition no_match (rules : list rule) (s : string) : Prop :=
  forall r, r ∈ rules -> rule_matches r s = false.

End Matcher.

(** ** [sre]: an engine for a fragment of Python's pattern syntax

    The fragment: literal characters, [.], alternation [|], groups [( )],
    the quantifiers [*], [+], [?] (also in their lazy forms [*?], [+?],
    [??], which accept the same strings), and a backslash before a
    character that is not an ASCII letter or digit. Anything else
    ([[ ]], [{ }], [^], [$], [(?...)], class escapes such as [\d],
    possessive quantifiers) is reported as [Unsupported]: the model says
    nothing about such patterns. No flag is set, as in [run.py]. *)
Module sre.

Inductive regex : Type :=
| Void                          (* matches no string *)
| Eps                           (* matches the empty string *)
| Chr (c : ascii)
| Dot                           (* any character but a newline *)
| Cat (r1 r2 : regex)
| Alt (r1 r2 : regex)
| Star (r : regex).

Definition newline : ascii := "010"%char.

(** The strings a pattern denotes. *)
Inductive lang : regex -> string -> Prop :=
| lang_eps : lang Eps ""
| lang_chr c : lang (Chr c) (String c "")
| lang_dot c : c <> newline -> lang Dot (String c "")
| lang_cat r1 r2 s1 s2 :
    lang r1 s1 -> lang r2 s2 -> lang (Cat r1 r2) (s1 +:+ s2)
| lang_alt_l r1 r2 s : lang r1 s -> lang (Alt r1 r2) s
| lang_alt_r r1 r2 s : lang r2 s -> lang (Alt r1 r2) s
| lang_star_nil r : lang (Star r) ""
| lang_star_cons r s1 s2 :
    lang r s1 -> lang (Star r) s2 -> lang (Star r) (s1 +:+ s2).

Fixpoint nullable (r : regex) : bool :=
  match r with
  | Void => false
  | Eps => true
  | Chr _ => false
  | Dot => false
  | Cat r1 r2 => nullable r1 && nullable r2
  | Alt r1 r2 => nullable r1 || nullable r2
  | Star _ => true
  end.

(** The pattern for what may follow a leading [c]. *)
Fixpoint deriv (c : ascii) (r : regex) : regex :=
  match r with
  | Void => Void
  | Eps => Void
  | Chr d => if Ascii.eqb c d then Eps else Void
  | Dot => if Ascii.eqb c newline then Void else Eps
  | Cat r1 r2 =>
      if nullable r1 then Alt (Cat (deriv c r1) r2) (deriv c r2)
      else Cat (deriv c r1) r2
  | Alt r1 r2 => Alt (deriv c r1) (deriv c r2)
  | Star r1 => Cat (deriv c r1) (Star r1)
  end.

(** [Pattern.match]: some characters at the beginning of the string match. *)
Fixpoint match_ (r : regex) (s : string) : bool :=
  nullable r ||
  match s with
  | EmptyString => false
  | String c s' => match_ (deriv c r) s'
  end.

(** [Pattern.fullmatch]: the whole string matches. *)
Fixpoint fullmatch (r : regex) (s : string) : bool :=
  match s with
  | EmptyString => nullable r
  | String c s' => fullmatch (deriv c r) s'
  end.

(** [Pattern.search]: a match starts at some position of the string. *)
Fixpoint search (r : regex) (s : string) : bool :=
  match_ r s ||
  match s with
  | EmptyString => false
  | String _ s' => search r s'
  end.

(** *** The parser

    One pass over the pattern, as the library's parser does it: an item is
    appended to the current branch, a quantifier rewrites the last item of
    the branch, [|] closes the branch, [(] opens a frame and [)] closes
    it. The first malformed or unsupported construct met decides. *)
Inductive parse_result : Type :=
| Parsed (r : regex)
| Malformed                     (* the library raises re.error *)
| Unsupported.                  (* outside the fragment *)

(** A group being parsed: the alternatives already closed and the items of
    the current branch, last item first; the flag marks a repeat. *)
Record frame : Type := mkFrame {
  alts : option regex;
  items : list (regex * bool);
}.

Definition empty_frame : frame := {| alts := None; items := [] |}.

Definition branch (its : list (regex * bool)) : regex :=
  fold_left (fun acc it => Cat (fst it) acc) its Eps.

Definition close (f : frame) : regex :=
  match alts f with
  | None => branch (items f)
  | Some a => Alt a (branch (items f))
  end.

Definition new_branch (f : frame) : frame :=
  {| alts := Some (close f); items := [] |}.

Definition push (r : regex) (f : frame) : frame :=
  {| alts := alts f; items := (r, false) :: items f |}.

Definition repeat_of (q : ascii) (r : regex) : regex :=
  if Ascii.eqb q "*" then Star r
  else if Ascii.eqb q "+" then Cat r (Star r)
  else Alt r Eps.

Definition is_quantifier (c : ascii) : bool :=
  Ascii.eqb c "*" || Ascii.eqb c "+" || Ascii.eqb c "?".

Definition is_ascii_alnum (c : ascii) : bool :=
  let n := nat_of_ascii c in
  ((48 <=? n) && (n <=? 57)) || ((65 <=? n) && (n <=? 90)) ||
  ((97 <=? n) && (n <=? 122)).

Definition outside_fragment (c : ascii) : bool :=
  Ascii.eqb c "[" || Ascii.eqb c "{" || Ascii.eqb c "^" || Ascii.eqb c "$".

Fixpoint parse_loop (src : string) (cur : frame) (stack : list frame)
    : parse_result :=
  match src with
  | EmptyString =>
      match stack with
      | [] => Parsed (close cur)
      | _ :: _ => Malformed                         (* missing ) *)
      end
  | String c rest =>
      if Ascii.eqb c "|" then parse_loop rest (new_branch cur) stack
      else if Ascii.eqb c "(" then
        match rest with
        | String "?" _ => Unsupported               (* (?...) *)
        | _ => parse_loop rest empty_frame (cur :: stack)
        end
      else if Ascii.eqb c ")" then
        match stack with
        | [] => Malformed                           (* unbalanced parenthesis *)
        | parent :: stack' => parse_loop rest (push (close cur) parent) stack'
        end
      else if is_quantifier c then
        match items cur with
        | [] => Malformed                           (* nothing to repeat *)
        | (_, true) :: _ => Malformed               (* multiple repeat *)
        | (r, false) :: its =>
            let cur' := {| alts := alts cur;
                           items := (repeat_of c r, true) :: its |} in
            match rest with
            | String "?" rest' => parse_loop rest' cur' stack   (* lazy *)
            | String "+" _ => Unsupported                       (* possessive *)
            | _ => parse_loop rest cur' stack
            end
        end
      else if Ascii.eqb c "." then parse_loop rest (push Dot cur) stack
      else if Ascii.eqb c "\" then
        match rest with
        | EmptyString => Malformed                  (* bad escape *)
        | String d rest' =>
            if is_ascii_alnum d then Unsupported
            else parse_loop rest' (push (Chr d) cur) stack
        end
      else if outside_fragment c then Unsupported
      else parse_loop rest (push (Chr c) cur) stack
  end.

Definition parse (p : string) : parse_result := parse_loop p empty_frame [].

(** [re.compile] on the fragment. [None] stands for [re.error] when
    [parse p = Malformed]; for a pattern outside the fragment it only says
    that this engine has no compiled form for it. *)
Definition compile (p : string) : option regex :=
  match parse p with
  | Parsed r => Some r
  | Malformed | Unsupported => None
  end.

End sre.

Global Instance sre_engine : ReEngine :=
  {| pattern := sre.regex; re_compile := sre.compile; pattern_match := sre.match_ |}.

(** ** Numbers of the library

    [pd.to_numeric] turns the amount strings into numbers (64-bit integers
    or floats, by the library's own rules), and the reports compare them
    with zero, multiply them by -1 and sum them. The interface names these
    operations; [num_nan] is the number stored for a missing amount. *)
Class Numeric : Type := {
  num : Type;
  to_numeric_str : string -> option num;   (* [None]: raises ValueError *)
  num_nan : num;
  num_lt0 : num -> bool;                   (* [x < 0] *)
  num_neg : num -> num;                    (* [x * -1] *)
  group_sum : list num -> num;             (* [groupby(...).sum()] of a group *)
  series_sum : list num -> num;            (* [Series.sum()] *)
}.

(** ** Strings and dates *)

(** [s[:n]] *)
Fixpoint slice_to (n : nat) (s : string) : string :=
  match n, s with
  | S n', String c s' => String c (slice_to n' s')
  | _, _ => EmptyString
  end.

(** [" " * n] *)
Fixpoint spaces (n : nat) : string :=
  match n with
  | O => EmptyString
  | S n' => String " " (spaces n')
  end.

(** [s.replace(old, new)] for single characters. *)
Fixpoint replace_char (old new : ascii) (s : string) : string :=
  match s with
  | EmptyString => EmptyString
  | String c s' =>
      String (if Ascii.eqb c old then new else c) (replace_char old new s')
  end.

(** The fields of a line: the text between the separators. *)
Fixpoint split (sep : ascii) (s : string) : list string :=
  match s with
  | EmptyString => [EmptyString]
  | String c s' =>
      if Ascii.eqb c sep then EmptyString :: split sep s'
      else match split sep s' with
           | [] => [String c EmptyString]
           | f :: fs => String c f :: fs
           end
  end.

Record date_t : Type := mkDate { year : nat; month : nat; day : nat }.

(** A cell of a [datetime64] column. *)
Inductive timestamp : Type :=
| Timestamp (d : date_t)
| NaT.

Definition is_digit (c : ascii) : bool :=
  (48 <=? nat_of_ascii c) && (nat_of_ascii c <=? 57).

Definition digit (c : ascii) : nat := nat_of_ascii c - 48.

Definition is_digit_1_9 (c : ascii) : bool := is_digit c && negb (Ascii.eqb c "0").

(** The directives of the format, as the library's [strptime] reads them:
    [%d] is [3[0-1]|[1-2]\d|0[1-9]|[1-9]| [1-9]], [%m] is
    [1[0-2]|0[1-9]|[1-9]] and [%Y] is four digits. *)
Definition directive_d (s : string) : option nat :=
  match s with
  | String a (String b EmptyString) =>
      if Ascii.eqb a "3" && (Ascii.eqb b "0" || Ascii.eqb b "1")
      then Some (30 + digit b)
      else if (Ascii.eqb a "1" || Ascii.eqb a "2") && is_digit b
      then Some (10 * digit a + digit b)
      else if (Ascii.eqb a "0" || Ascii.eqb a " ") && is_digit_1_9 b
      then Some (digit b)
      else None
  | String a EmptyString => if is_digit_1_9 a then Some (digit a) else None
  | _ => None
  end.

Definition directive_m (s : string) : option nat :=
  match s with
  | String a (String b EmptyString) =>
      if Ascii.eqb a "1" && (Ascii.eqb b "0" || Ascii.eqb b "1" || Ascii.eqb b "2")
      then Some (10 + digit b)
      else if Ascii.eqb a "0" && is_digit_1_9 b then Some (digit b)
      else None
  | String a EmptyString => if is_digit_1_9 a then Some (digit a) else None
  | _ => None
  end.

Definition directive_Y (s : string) : option nat :=
  match s with
  | String a (String b (String c (String d EmptyString))) =>
      if is_digit a && is_digit b && is_digit c && is_digit d
      then Some (1000 * digit a + 100 * digit b + 10 * digit c + digit d)
      else None
  | _ => None
  end.

Definition is_leap (y : nat) : bool :=
  (y mod 4 =? 0) && (negb (y mod 100 =? 0) || (y mod 400 =? 0)).

Definition days_in_month (y m : nat) : nat :=
  match m with
  | 2 => if is_leap y then 29 else 28
  | 4 | 6 | 9 | 11 => 30
  | _ => 31
  end.

(** [strptime(s, "%d.%m.%Y")] with an exact match of the whole string. The
    three directives are separated by literal dots, so the string has
    exactly three dot-separated parts. The day has to exist in the month.
    The range of the library's timestamp type is not modelled. *)
Definition strptime_dmY (s : string) : option date_t :=
  match split "." s with
  | [d; m; y] =>
      d ← directive_d d;
      m ← directive_m m;
      y ← directive_Y y;
      if (1 <=? y) && (d <=? days_in_month y m)
      then Some {| year := y; month := m; day := d |}
      else None
  | _ => None
  end.

(** The decimal digit of [n < 10]. *)
Definition digit_char (n : nat) : ascii := ascii_of_nat (48 + n).

Definition two_digits (n : nat) : string :=
  String (digit_char (n / 10)) (String (digit_char (n mod 10)) EmptyString).

Definition four_digits (n : nat) : string :=
  String (digit_char (n / 1000)) (String (digit_char (n / 100 mod 10))
    (String (digit_char (n / 10 mod 10))
       (String (digit_char (n mod 10)) EmptyString))).

(** The text DD.MM.YYYY of a date, with zero-padded day and month. *)
Definition text_dmY (d : date_t) : string :=
  two_digits (day d) +:+ "." +:+ two_digits (month d) +:+ "." +:+
  four_digits (year d).

(** One element of [pd.to_datetime(column, format="%d.%m.%Y")]: a missing
    value becomes [NaT], a string that does not fit the format raises. *)
Definition to_datetime (x : pyval) : outcome timestamp :=
  match x with
  | PyNaN => Return NaT
  | PyStr s =>
      match strptime_dmY s with
      | Some d => Return (Timestamp d)
      | None => Raise ValueError
      end
  end.

(** ** [pd.read_csv(path, delimiter=";", skiprows=n)]

    The file is given as the list of its decoded lines, without line ends.
    Modelled: the first [skiprows] lines are dropped whatever they hold;
    of the rest, blank lines (empty or made of spaces and tabs) are
    ignored; the first line left gives the column names and the others are
    the data; a field listed in [STR_NA_VALUES] is read as missing; a line
    with fewer fields than expected is filled up with missing values and
    one with more raises [ParserError], except the first data line: the
    fields it has beyond the number of names become the index of the
    frame, and the columns are the fields after them.
    Not modelled: quoted fields (no line holds a double quote), and the
    conversion of a column whose fields all read as numbers or booleans;
    [DataFrame.apply] on a frame with no row is taken as the empty
    column. *)
Definition is_blank (line : string) : bool :=
  forallb (fun c => Ascii.eqb c " " || Ascii.eqb c "009")
          (list_ascii_of_string line).

Definition STR_NA_VALUES : list string :=
  [""; "#N/A"; "#N/A N/A"; "#NA"; "-1.#IND"; "-1.#QNAN"; "-NaN"; "-nan";
   "1.#IND"; "1.#QNAN"; "<NA>"; "N/A"; "NA"; "NULL"; "NaN"; "None"; "n/a";
   "nan"; "null"].

Definition cell_of (field : string) : pyval :=
  if existsb (String.eqb field) STR_NA_VALUES then PyNaN else PyStr field.

(** The records of the file: the non-blank lines after the skipped ones,
    each split into its fields. The first one is the row of names. *)
Definition records (sep : ascii) (skiprows : nat) (lines : list string)
    : list (list string) :=
  split sep <$> filter (fun l => negb (is_blank l)) (drop skiprows lines).

(** The frame as read: the column names and the rows of cells, each row
    with one cell per column. *)
Record RawFrame : Type := mkRawFrame {
  columns : list string;
  rows : list (list pyval);
}.

Definition pad (width : nat) (cells : list pyval) : list pyval :=
  cells ++ replicate (width - length cells) PyNaN.

Definition read_csv (lines : list string) (sep : ascii) (skiprows : nat)
    : outcome RawFrame :=
  match records sep skiprows lines with
  | [] => Raise EmptyDataError
  | names :: data =>
      let width :=
        match data with
        | [] => length names
        | first :: _ => max (length names) (length first)
        end in
      if existsb (fun r => width <? length r) data then Raise ParserError
      else Return {| columns := names;
                     rows := (fun r => drop (width - length names)
                                            (pad width (cell_of <$> r)))
                             <$> data |}
  end.

(** ** class StatementData *)

Section Statement.
Context {E : ReEngine} {N : Numeric}.

(** The table [self._df]: six columns of the same length. *)
Record DataFrame : Type := mkDataFrame {
  due_date : list timestamp;
  amount : list num;
  counterparty : list pyval;
  date : list timestamp;
  category : list string;
  name : list string;
}.

(** [x[:10]] on a cell: a float cannot be sliced. *)
Definition slice10 (x : pyval) : outcome string :=
  match x with
  | PyStr s => Return (slice_to 10 s)
  | PyNaN => Raise TypeError
  end.

(** [row["due date"] if row["date"] == " " * 10 else row["date"]] *)
Definition date_or_due (due : pyval) (d : string) : pyval :=
  if String.eqb d (spaces 10) then due else PyStr d.

(** One element of [Series.str.replace(",", ".")]. *)
Definition str_replace (x : pyval) : pyval :=
  match x with
  | PyStr s => PyStr (replace_char "," "." s)
  | PyNaN => PyNaN
  end.

(** One element of [pd.to_numeric]. *)
Definition to_numeric (x : pyval) : outcome num :=
  match x with
  | PyNaN => Return num_nan
  | PyStr s =>
      match to_numeric_str s with
      | Some n => Return n
      | None => Raise ValueError
      end
  end.

(** The column at position [i] of the frame as read. *)
Definition column (i : nat) (df : RawFrame) : list pyval :=
  (fun r => nth i r PyNaN) <$> rows df.

(** [StatementData._parse]; the argument [lines] is the content of the
    file at [statement_filepath]. Each step works on a whole column, in
    the order of the source, so the first step that fails decides the
    exception. *)
Definition _parse (_category_assigner : CategoryAssigner)
    (lines : list string) : outcome DataFrame :=
  (* df = pd.read_csv(..., delimiter=";", skiprows=17) *)
  df ← read_csv lines ";" 17;
  (* df = df[df.columns[[0, 4, 15, 18]]]; the names are then replaced *)
  _ ← (if length (columns df) <=? 18 then Raise IndexError else Return ());
  let due_date := column 0 df in
  let amount := column 4 df in
  let counterparty := column 15 df in
  let date := column 18 df in
  (* df["date"] = df["date"].apply(lambda x: x[:10]) *)
  date ← mapM slice10 date;
  (* df["date"] = df.apply(lambda row: ..., axis=1) *)
  let date := zip_with date_or_due due_date date in
  (* pd.to_datetime of both date columns *)
  date ← mapM to_datetime date;
  due_date ← mapM to_datetime due_date;
  (* df["amount"] = pd.to_numeric(df["amount"].str.replace(",", ".")) *)
  amount ← mapM to_numeric (str_replace <$> amount);
  (* df["category"], df["name"] *)
  category ← mapM (get_category _category_assigner) counterparty;
  name ← mapM (get_name _category_assigner) counterparty;
  Return {| due_date := due_date; amount := amount;
            counterparty := counterparty; date := date;
            category := category; name := name |}.

(** *** Frames as objects

    The reports build new frames from [self._df] and change one of them in
    place, so frames live in a store and variables hold references. *)
Abbreviation loc := positive (only parsing).

(** [df[["amount", "category"]]] and what is derived from it. *)
Record SpentFrame : Type := mkSpentFrame {
  spent_amount : list num;
  spent_category : list string;
}.

(** [df[["date", "amount", "counterparty"]]] *)
Record UnknownFrame : Type := mkUnknownFrame {
  unknown_date : list timestamp;
  unknown_amount : list num;
  unknown_counterparty : list pyval;
}.

Inductive object : Type :=
| ODataFrame (df : DataFrame)
| OSpentFrame (df : SpentFrame)
| OGrouped (index_and_sums : list (string * num)).

Abbreviation store := (gmap loc object) (only parsing).

(** A new object: it gets a reference no object of the store has. *)
Definition alloc (o : object) (h : store) : loc * store :=
  let l := fresh (dom h) in (l, <[l := o]> h).

Definition load_DataFrame (h : store) (l : loc) : option DataFrame :=
  match h !! l with
  | Some (ODataFrame df) => Some df
  | _ => None
  end.

Definition load_SpentFrame (h : store) (l : loc) : option SpentFrame :=
  match h !! l with
  | Some (OSpentFrame df) => Some df
  | _ => None
  end.

Definition load_Grouped (h : store) (l : loc) : option (list (string * num)) :=
  match h !! l with
  | Some (OGrouped g) => Some g
  | _ => None
  end.

Record StatementData : Type := mkStatementData {
  _category_assigner : CategoryAssigner;
  _df : loc;
}.

(** [StatementData.__init__]: the rules are loaded, the statement is
    parsed, and the table becomes a new object that [self._df] refers to.
    [categories] is the content of the JSON file, [statement] the lines of
    the CSV file. *)
Definition StatementData__init__ (statement : list string)
    (categories : list (gmap string string)) (h : store)
    : outcome (StatementData * store) :=
  assigner ← from_json categories;
  df ← _parse assigner statement;
  let '(l, h) := alloc (ODataFrame df) h in
  Return ({| _category_assigner := assigner; _df := l |}, h).

(** [df[mask]]: the elements of a column at the rows where the mask holds. *)
Fixpoint select {A : Type} (mask : list bool) (col : list A) : list A :=
  match mask, col with
  | b :: mask', x :: col' =>
      if b then x :: select mask' col' else select mask' col'
  | _, _ => []
  end.

(** [StatementData.print_unknown_categories]: the frame that is printed.
    The two selections build new frames, which nothing refers to once
    they are printed; the store is not written. A reference that holds no
    table gives [None]. *)
Definition print_unknown_categories (self : StatementData) (h : store)
    : option (UnknownFrame * store) :=
  df ← load_DataFrame h (_df self);
  let mask := (fun c => String.eqb c "unknown category") <$> category df in
  Some ({| unknown_date := select mask (date df);
           unknown_amount := select mask (amount df);
           unknown_counterparty := select mask (counterparty df) |}, h).

(** The keys of the groups: every category once, in increasing order. *)
Fixpoint insert_key (k : string) (keys : list string) : list string :=
  match keys with
  | [] => [k]
  | k' :: keys' =>
      match String_as_OT.compare k k' with
      | Lt => k :: keys
      | Eq => keys
      | Gt => k' :: insert_key k keys'
      end
  end.

Definition group_keys (col : list string) : list string :=
  fold_right insert_key [] col.

(** [df.groupby(["category"]).sum()]: one row per category, in the order
    of the keys, with the sum of the amounts of the category's rows. *)
Definition groupby_sum (df : SpentFrame) : list (string * num) :=
  (fun k => (k, group_sum (select (String.eqb k <$> spent_category df)
                                   (spent_amount df))))
  <$> group_keys (spent_category df).

(** What the pie chart is drawn from. *)
Record chart : Type := mkChart {
  slices : list (string * num);
  spent_total : num;
}.

(** [StatementData.show_expense_pie_chart], up to the call of the plotting
    library, whose input is returned. *)
Definition show_expense_pie_chart (self : StatementData) (h : store)
    : option (chart * store) :=
  df ← load_DataFrame h (_df self);
  (* self._df[["amount", "category"]]: a new frame *)
  let '(two, h) :=
    alloc (OSpentFrame {| spent_amount := amount df;
                          spent_category := category df |}) h in
  (* [...][self._df["amount"] < 0]: a new frame again *)
  two_df ← load_SpentFrame h two;
  let mask := num_lt0 <$> amount df in
  let '(df_spent, h) :=
    alloc (OSpentFrame {| spent_amount := select mask (spent_amount two_df);
                          spent_category := select mask (spent_category two_df) |})
          h in
  (* df_spent["amount"] *= -1: written into the object of df_spent *)
  cur ← load_SpentFrame h df_spent;
  let h := <[df_spent := OSpentFrame
               {| spent_amount := num_neg <$> spent_amount cur;
                  spent_category := spent_category cur |}]> h in
  (* df_spent = df_spent.groupby(["category"]).sum() *)
  cur ← load_SpentFrame h df_spent;
  let '(df_spent, h) := alloc (OGrouped (groupby_sum cur)) h in
  (* spent_total = df_spent["amount"].sum() *)
  grouped ← load_Grouped h df_spent;
  let total := series_sum (snd <$> grouped) in
  Some ({| slices := grouped; spent_total := total |}, h).

End Statement.

Abbreviation loc := positive (only parsing).
Abbreviation store := (gmap loc object) (only parsing).

(** ** [Decimal]: numbers for concrete runs

    Exact decimal numbers: [Dec u k] is [u / 10^k]. The literals read are
    the plain ones, an optional sign and digits with at most one point;
    on them the library reads the same number. *)
Module Decimal.

Inductive t : Type :=
| Dec (units : Z) (scale : nat)
| NaN.

Fixpoint digits_value (acc : Z) (s : string) : option Z :=
  match s with
  | EmptyString => Some acc
  | String c s' =>
      if is_digit c then digits_value (10 * acc + Z.of_nat (digit c))%Z s'
      else None
  end.

Definition unsigned (s : string) : option t :=
  match split "." s with
  | [i] =>
      if String.eqb i "" then None
      else u ← digits_value 0%Z i; Some (Dec u 0)
  | [i; f] =>
      if String.eqb i "" && String.eqb f "" then None
      else u ← digits_value 0%Z (i +:+ f); Some (Dec u (String.length f))
  | _ => None
  end.

Definition neg (x : t) : t :=
  match x with
  | Dec u k => Dec (- u)%Z k
  | NaN => NaN
  end.

Definition parse (s : string) : option t :=
  match s with
  | String "-" s' => neg <$> unsigned s'
  | String "+" s' => unsigned s'
  | _ => unsigned s
  end.

Definition lt0 (x : t) : bool :=
  match x with
  | Dec u _ => (u <? 0)%Z
  | NaN => false
  end.

Definition add (x y : t) : t :=
  match x, y with
  | Dec u j, Dec v k =>
      let m := max j k in
      Dec (u * 10 ^ Z.of_nat (m - j) + v * 10 ^ Z.of_nat (m - k))%Z m
  | _, _ => NaN
  end.

Definition sum (l : list t) : t := fold_left add l (Dec 0 0).

End Decimal.

Global Instance decimal_numeric : Numeric :=
  {| num := Decimal.t; to_numeric_str := Decimal.parse;
     num_nan := Decimal.NaN; num_lt0 := Decimal.lt0; num_neg := Decimal.neg;
     group_sum := Decimal.sum; series_sum := Decimal.sum |}.

(** ** Vocabulary of the statements *)

(** The record [item] of the rules file holds the three fields of [r]. *)
Definition record_of (item : gmap string string) (r : rule) : Prop :=
  item !! "name" = Some (rule_name r) /\
  item !! "regex" = Some (rule_regex r) /\
  item !! "category" = Some (rule_category r).

(** The number of leading fields of a data line that form the index: the
    fields the first data line has beyond the number of names. *)
Definition index_width (names : list string) (data : list (list string)) : nat :=
  match data with
  | [] => 0
  | first :: _ => length first - length names
  end.

(** The cell of column [i] that a data line gives, missing when the line
    has no such field. *)
Definition cell (lead i : nat) (fields : list string) : pyval :=
  nth (lead + i) (cell_of <$> fields) PyNaN.

Section ReportVocabulary.
Context {E : ReEngine} {N : Numeric}.

(** The rows of the table with a negative amount, as pairs of amount and
    category, in the order of the table. *)
Definition expense_rows (df : DataFrame) : list (num * string) :=
  filter (fun row => num_lt0 row.1) (zip (amount df) (category df)).

(** The magnitudes of the expenses of category [k], in the same order. *)
Definition magnitudes (k : string) (df : DataFrame) : list num :=
  (fun row => num_neg row.1) <$>
  filter (fun row => String.eqb k row.2) (expense_rows df).

(** A call of one of the two reports, and what it hands to the outside. *)
Inductive report : Type :=
| PrintUnknownCategories
| ShowExpensePieChart.

Inductive report_output : Type :=
| Printed (frame : UnknownFrame)
| Plotted (c : chart).

Definition call (self : StatementData) (rep : report) (h : store)
    : option (report_output * store) :=
  match rep with
  | PrintUnknownCategories =>
      '(frame, h) ← print_unknown_categories self h; Some (Printed frame, h)
  | ShowExpensePieChart =>
      '(c, h) ← show_expense_pie_chart self h; Some (Plotted c, h)
  end.

(** A sequence of report calls on the same object, as the script makes
    them one after the other. *)
Fixpoint calls (self : StatementData) (reps : list report) (h : store)
    : option (list report_output * store) :=
  match reps with
  | [] => Some ([], h)
  | rep :: reps' =>
      '(out, h) ← call self rep h;
      '(outs, h) ← calls self reps' h;
      Some (out :: outs, h)
  end.

End ReportVocabulary.

(** The first of the keys [name], [regex], [category], in the order in
    which [from_json] reads them, that the record does not have. *)
Definition missing_key (item : gmap string string) : option string :=
  match item !! "name", item !! "regex", item !! "category" with
  | None, _, _ => Some "name"
  | Some _, None, _ => Some "regex"
  | Some _, Some _, None => Some "category"
  | Some _, Some _, Some _ => None
  end.

(** The string is made of decimal digits. *)
Definition all_digits (s : string) : bool :=
  forallb is_digit (list_ascii_of_string s).

(** The characters with a meaning of their own in a pattern. *)
Definition is_special (c : ascii) : bool :=
  Ascii.eqb c "|" || Ascii.eqb c "(" || Ascii.eqb c ")" ||
  sre.is_quantifier c || Ascii.eqb c "." || Ascii.eqb c "\" ||
  sre.outside_fragment c.

(** A pattern without such characters. *)
Fixpoint plain (p : string) : bool :=
  match p with
  | EmptyString => true
  | String c p' => negb (is_special c) && plain p'
  end.

(** The compiled form of a plain pattern: its characters in sequence. *)
Fixpoint literal (p : string) : sre.regex :=
  match p with
  | EmptyString => sre.Eps
  | String c p' => sre.Cat (sre.Chr c) (literal p')
  end.

Section ScriptVocabulary.
Context {E : ReEngine} {N : Numeric}.

(** [get_category] returns the sentinel for this counterparty. *)
Definition is_unknown (a : CategoryAssigner) (v : pyval) : bool :=
  match get_category a v with
  | Return c => String.eqb c "unknown category"
  | Raise _ => false
  end.

(** The script at the end of the file: the object is constructed and the
    two reports are called on it. [None] stands for a report called on a
    reference that holds no table. *)
Definition main (statement : list string)
    (categories : list (gmap string string)) (h : store)
    : outcome (option (UnknownFrame * chart * store)) :=
  '(data, h) ← StatementData__init__ statement categories h;
  Return ('(frame, h) ← print_unknown_categories data h;
          '(c, h) ← show_expense_pie_chart data h;
          Some (frame, c, h)).

End ScriptVocabulary.

(** ** Data of the examples *)

(** A rules file with a pattern that does not compile. *)
Definition broken_rules : list (gmap string string) :=
  [ {[ "name" := "Broken"; "regex" := "("; "category" := "misc" ]} ].

Definition example_rules : list (gmap string string) :=
  [ {[ "name" := "Albert"; "regex" := "ALBERT.*"; "category" := "food" ]};
    {[ "name" := "Lidl"; "regex" := "LIDL"; "category" := "food" ]} ].

(** A statement: 17 lines of preamble, the line of names, two payments. *)
Definition example_names : string := "a;b;c;d;e;f;g;h;i;j;k;l;m;n;o;p;q;r;s".

Definition example_statement : list string :=
  replicate 17 "preamble" ++
  [ example_names;
    "15.03.2023;;;;-123,45;;;;;;;;;;;ALBERT 123;;;14.03.2023 10:30";
    "15.03.2023;;;;-10,00;;;;;;;;;;;POS LIDL;;;          " ].

(** The same statement with a line of 10 fields at the end. *)
Definition short_row_statement : list string :=
  example_statement ++ ["16.03.2023;a;b;c;-5,00;e;f;g;h;i"].

(** The three rows of the aggregation example. *)
Definition food_rows : @DataFrame decimal_numeric :=
  {| due_date := [NaT; NaT; NaT];
     amount := [Decimal.Dec (-10) 0; Decimal.Dec (-5) 0; Decimal.Dec 20 0];
     counterparty := [PyNaN; PyNaN; PyNaN];
     date := [NaT; NaT; NaT];
     category := ["food"; "food"; "food"];
     name := ["x"; "x"; "x"] |}.

Definition food_store : gmap loc (@object decimal_numeric) :=
  {[ 1%positive := ODataFrame food_rows ]}.

Definition food_self : StatementData :=
  {| _category_assigner := __init__ []; _df := 1%positive |}.


(** The table that [example_statement] and [example_rules] give. *)
Definition example_table : @DataFrame decimal_numeric :=
  {| due_date := [Timestamp {| year := 2023; month := 3; day := 15 |};
                  Timestamp {| year := 2023; month := 3; day := 15 |}];
     amount := [Decimal.Dec (-12345) 2; Decimal.Dec (-1000) 2];
     counterparty := [PyStr "ALBERT 123"; PyStr "POS LIDL"];
     date := [Timestamp {| year := 2023; month := 3; day := 14 |};
              Timestamp {| year := 2023; month := 3; day := 15 |}];
     category := ["food"; "unknown category"];
     name := ["Albert"; "unknown name"] |}.

Definition example_assigner : CategoryAssigner :=
  __init__ [("ALBERT.*", "Albert", "food"); ("LIDL", "Lidl", "food")].


(** The chart of [food_rows]. *)
Definition food_chart : @chart decimal_numeric :=
  {| slices := [("food", Decimal.Dec 15 0)]; spent_total := Decimal.Dec 15 0 |}.


(** Two rules that both match "ALBERT 123"; the second is the more
    specific one. *)
Definition overlapping_rules : list rule :=
  [("ALBERT.*", "Albert", "food"); ("ALBERT 123", "Corner shop", "groceries")].

(** The compiled form of the pattern "LIDL". *)
Definition lidl_pattern : sre.regex :=
  sre.Cat (sre.Chr "L") (sre.Cat (sre.Chr "I")
    (sre.Cat (sre.Chr "D") (sre.Cat (sre.Chr "L") sre.Eps))).

(** The object and the store that the construction from
    [example_statement] and [example_rules] gives in an empty store. *)
Definition example_self : StatementData :=
  {| _category_assigner := example_assigner; _df := 1%positive |}.

Definition example_store : gmap loc (@object decimal_numeric) :=
  {[ 1%positive := ODataFrame example_table ]}.

(** A record without the key [regex]. *)
Definition record_without_regex : gmap string string :=
  {[ "name" := "Tesco"; "category" := "food" ]}.

(** [example_statement] with a payment whose counterparty field is empty. *)
Definition no_counterparty_statement : list string :=
  example_statement ++ ["16.03.2023;;;;-5,00;;;;;;;;;;;;;;16.03.2023"].

(** [example_statement] with other text in the fields that are not read. *)
Definition noisy_statement : list string :=
  replicate 17 "another preamble" ++
  [ "A;B;C;D;E;F;G;H;I;J;K;L;M;N;O;P;Q;R;S";
    "15.03.2023;1;2;3;-123,45;5;6;7;8;9;10;11;12;13;14;ALBERT 123;16;17;14.03.2023 10:30";
    "15.03.2023;;x;;-10,00;;;;;;;;;;y;POS LIDL;;z;          " ].

(** [example_statement] with a line of 20 fields at the end. *)
Definition long_row_statement : list string :=
  example_statement ++ ["16.03.2023;;;;-5,00;;;;;;;;;;;LIDL;;;16.03.2023;more"].

(** [example_statement] with a payment that has no due date and a blank
    transaction date. *)
Definition no_due_date_statement : list string :=
  example_statement ++ [";;;;-5,00;;;;;;;;;;;LIDL;;;          "].

(** The two expenses of [food_rows], without the income. *)
Definition food_expenses : @DataFrame decimal_numeric :=
  {| due_date := [NaT; NaT];
     amount := [Decimal.Dec (-10) 0; Decimal.Dec (-5) 0];
     counterparty := [PyNaN; PyNaN];
     date := [NaT; NaT];
     category := ["food"; "food"];
     name := ["y"; "y"] |}.

Definition food_expenses_store : gmap loc (@object decimal_numeric) :=
  {[ 1%positive := ODataFrame food_expenses ]}.

(** * Properties *)

(** ** The rule loops, for every engine *)

Section MatcherProperties.
Context {E : ReEngine}.

Implicit Types (rules : list rule) (r : rule) (s : string) (v : pyval).

Lemma get_category_nil v :
  get_category (__init__ []) v = Return "unknown category".
Proof. reflexivity. Qed.

Lemma get_name_nil v : get_name (__init__ []) v = Return "unknown name".
Proof. reflexivity. Qed.

Lemma get_category_cons r rules v :
  get_category (__init__ (r :: rules)) v =
  (m ← re_match (rule_regex r) v;
   if m : bool then Return (rule_category r)
   else get_category (__init__ rules) v).
Proof. destruct r as [[regex nm] cat]. reflexivity. Qed.

Lemma get_name_cons r rules v :
  get_name (__init__ (r :: rules)) v =
  (m ← re_match (rule_regex r) v;
   if m : bool then Return (rule_name r) else get_name (__init__ rules) v).
Proof. destruct r as [[regex nm] cat]. reflexivity. Qed.

(** On a string, a rule whose pattern compiles is tested by [rule_matches]. *)
Lemma re_match_valid r s :
  valid_rule r -> re_match (rule_regex r) (PyStr s) = Return (rule_matches r s).
Proof.
  intros [p Hp]. unfold re_match, rule_matches. rewrite Hp. reflexivity.
Qed.

Lemma re_match_invalid regex v :
  re_compile regex = None -> re_match regex v = Raise re_error.
Proof. intros H. unfold re_match. rewrite H. reflexivity. Qed.

Lemma first_match_here r rules s :
  rule_matches r s = true -> first_match (r :: rules) s 0 r.
Proof.
  intros H. split; [reflexivity|]. split; [exact H|]. intros j r' Hj. lia.
Qed.

Lemma first_match_later r0 rules s i r :
  rule_matches r0 s = false ->
  first_match rules s i r -> first_match (r0 :: rules) s (S i) r.
Proof.
  intros H0 (Hi & Hm & Hbefore). split; [exact Hi|]. split; [exact Hm|].
  intros [|j] r' Hj Hl; simpl in Hl.
  - congruence.
  - apply (Hbefore j); [lia | exact Hl].
Qed.

Lemma first_match_inv r0 rules s i r :
  first_match (r0 :: rules) s i r ->
  (i = 0 /\ r = r0 /\ rule_matches r0 s = true) \/
  (exists i', i = S i' /\ rule_matches r0 s = false /\ first_match rules s i' r).
Proof.
  intros (Hi & Hm & Hbefore). destruct i as [|i'].
  - left. simpl in Hi. split; [reflexivity|]. split; congruence.
  - right. exists i'. split; [reflexivity|]. split.
    + apply (Hbefore 0); [lia | reflexivity].
    + split; [exact Hi|]. split; [exact Hm|].
      intros j r' Hj Hl. apply (Hbefore (S j)); [lia | exact Hl].
Qed.

Lemma no_match_cons r0 rules s :
  no_match (r0 :: rules) s <-> rule_matches r0 s = false /\ no_match rules s.
Proof.
  unfold no_match. split.
  - intros H. split; [apply H; left | intros r Hr; apply H; right; exact Hr].
  - intros [H0 H] r Hr. apply elem_of_cons in Hr as [-> | Hr]; auto.
Qed.

(** Either some rule is the first to match, or none matches. *)
Lemma first_match_or_none rules s :
  (exists i r, first_match rules s i r) \/ no_match rules s.
Proof.
  induction rules as [|r0 rules IH].
  - right. intros r Hr. inversion Hr.
  - destruct (rule_matches r0 s) eqn:H0.
    + left. exists 0, r0. apply first_match_here, H0.
    + destruct IH as [(i & r & Hfm) | Hnone].
      * left. exists (S i), r. apply first_match_later; assumption.
      * right. apply no_match_cons. split; assumption.
Qed.

Lemma first_match_unique rules s i r i' r' :
  first_match rules s i r -> first_match rules s i' r' -> i = i' /\ r = r'.
Proof.
  intros (Hi & Hm & Hb) (Hi' & Hm' & Hb').
  assert (i = i') as <-.
  { destruct (Nat.lt_trichotomy i i') as [Hlt | [Heq | Hgt]]; [|exact Heq|].
    - specialize (Hb' i r Hlt Hi). congruence.
    - specialize (Hb i' r' Hgt Hi'). congruence. }
  split; [reflexivity | congruence].
Qed.

Lemma first_match_not_none rules s i r :
  first_match rules s i r -> ~ no_match rules s.
Proof.
  intros (Hi & Hm & _) Hnone.
  assert (r ∈ rules) as Hin by (eapply list_elem_of_lookup_2; exact Hi).
  specialize (Hnone r Hin). congruence.
Qed.

Lemma get_category_first_match rules s i r :
  Forall valid_rule rules -> first_match rules s i r ->
  get_category (__init__ rules) (PyStr s) = Return (rule_category r).
Proof.
  intros Hvalid. revert i. induction Hvalid as [|r0 rules Hr0 _ IH]; intros i Hfm.
  - destruct Hfm as (Hi & _). discriminate Hi.
  - rewrite get_category_cons, (re_match_valid _ _ Hr0). simpl.
    apply first_match_inv in Hfm as [(-> & -> & H0) | (i' & -> & H0 & Hfm)];
      rewrite H0; [reflexivity | eapply IH, Hfm].
Qed.

Lemma get_name_first_match rules s i r :
  Forall valid_rule rules -> first_match rules s i r ->
  get_name (__init__ rules) (PyStr s) = Return (rule_name r).
Proof.
  intros Hvalid. revert i. induction Hvalid as [|r0 rules Hr0 _ IH]; intros i Hfm.
  - destruct Hfm as (Hi & _). discriminate Hi.
  - rewrite get_name_cons, (re_match_valid _ _ Hr0). simpl.
    apply first_match_inv in Hfm as [(-> & -> & H0) | (i' & -> & H0 & Hfm)];
      rewrite H0; [reflexivity | eapply IH, Hfm].
Qed.

Lemma get_category_no_match rules s :
  Forall valid_rule rules -> no_match rules s ->
  get_category (__init__ rules) (PyStr s) = Return "unknown category".
Proof.
  induction 1 as [|r0 rules Hr0 _ IH]; intros Hnone; [reflexivity|].
  apply no_match_cons in Hnone as [H0 Hnone].
  rewrite get_category_cons, (re_match_valid _ _ Hr0). simpl. rewrite H0.
  apply IH, Hnone.
Qed.

Lemma get_name_no_match rules s :
  Forall valid_rule rules -> no_match rules s ->
  get_name (__init__ rules) (PyStr s) = Return "unknown name".
Proof.
  induction 1 as [|r0 rules Hr0 _ IH]; intros Hnone; [reflexivity|].
  apply no_match_cons in Hnone as [H0 Hnone].
  rewrite get_name_cons, (re_match_valid _ _ Hr0). simpl. rewrite H0.
  apply IH, Hnone.
Qed.

(** When two rules both match, the earlier one decides, whatever follows. *)
Lemma earlier_rule_wins r1 r2 rules s :
  valid_rule r1 -> rule_matches r1 s = true -> rule_matches r2 s = true ->
  get_category (__init__ (r1 :: r2 :: rules)) (PyStr s) = Return (rule_category r1) /\
  get_name (__init__ (r1 :: r2 :: rules)) (PyStr s) = Return (rule_name r1).
Proof.
  intros H1 Hm1 _.
  rewrite get_category_cons, get_name_cons, (re_match_valid _ _ H1). simpl.
  rewrite Hm1. split; reflexivity.
Qed.

(** C1. For a rule list whose patterns are valid and a counterparty string,
    [get_category] returns the category of the first rule in list order
    whose regex matches the counterparty and [get_name] returns its name;
    when no rule matches they return "unknown category" and "unknown
    name". One of the two cases always holds, so the result is fixed by
    list order alone; with the empty list both sentinels are returned. *)
Theorem C1_first_match_in_list_order rules s
    (Hvalid : Forall valid_rule rules) :
  (forall i r, first_match rules s i r ->
     get_category (__init__ rules) (PyStr s) = Return (rule_category r) /\
     get_name (__init__ rules) (PyStr s) = Return (rule_name r)) /\
  (no_match rules s ->
     get_category (__init__ rules) (PyStr s) = Return "unknown category" /\
     get_name (__init__ rules) (PyStr s) = Return "unknown name") /\
  ((exists i r, first_match rules s i r) \/ no_match rules s) /\
  (forall i j ri rj, i < j -> rules !! i = Some ri -> rules !! j = Some rj ->
     rule_matches ri s = true -> rule_matches rj s = true ->
     ~ first_match rules s j rj) /\
  get_category (__init__ []) (PyStr s) = Return "unknown category" /\
  get_name (__init__ []) (PyStr s) = Return "unknown name".
Proof.
  split; [|split; [|split; [|split; [|split]]]].
  - intros i r Hfm. split.
    + eapply get_category_first_match; eassumption.
    + eapply get_name_first_match; eassumption.
  - intros Hnone. split.
    + apply get_category_no_match; assumption.
    + apply get_name_no_match; assumption.
  - apply first_match_or_none.
  - intros i j ri rj Hlt Hi Hj Hmi Hmj (_ & _ & Hbefore).
    specialize (Hbefore i ri Hlt Hi). congruence.
  - reflexivity.
  - reflexivity.
Qed.

(** C3. When every pattern of the rule list is valid, [get_category] and
    [get_name] return a string for every counterparty string, the empty one
    and those with metacharacters included: they do not raise. They are
    functions of the rule list and the string, so the value is determined. *)
Theorem C3_total_on_valid_rules rules s (Hvalid : Forall valid_rule rules) :
  (exists c, get_category (__init__ rules) (PyStr s) = Return c) /\
  (exists n, get_name (__init__ rules) (PyStr s) = Return n).
Proof.
  destruct (first_match_or_none rules s) as [(i & r & Hfm) | Hnone].
  - split; eexists.
    + eapply get_category_first_match; eassumption.
    + eapply get_name_first_match; eassumption.
  - split; eexists.
    + apply get_category_no_match; assumption.
    + apply get_name_no_match; assumption.
Qed.

(** C10. For a rule list with valid patterns and a counterparty string,
    [get_category] and [get_name] agree on the rule that fires: either no
    rule matches and both return their sentinel, or there is exactly one
    position [i], that of the first matching rule, and they return the
    category and the name of rule [i]. If no rule carries a sentinel
    string, one returns its sentinel exactly when the other does. *)
Theorem C10_category_and_name_agree rules s
    (Hvalid : Forall valid_rule rules) :
  ((no_match rules s /\
    get_category (__init__ rules) (PyStr s) = Return "unknown category" /\
    get_name (__init__ rules) (PyStr s) = Return "unknown name") \/
   (exists i r, first_match rules s i r /\
      (forall i' r', first_match rules s i' r' -> i' = i /\ r' = r) /\
      get_category (__init__ rules) (PyStr s) = Return (rule_category r) /\
      get_name (__init__ rules) (PyStr s) = Return (rule_name r))) /\
  ((forall r, r ∈ rules ->
      rule_category r <> "unknown category" /\ rule_name r <> "unknown name") ->
   (get_category (__init__ rules) (PyStr s) = Return "unknown category" <->
    get_name (__init__ rules) (PyStr s) = Return "unknown name")).
Proof.
  destruct (first_match_or_none rules s) as [(i & r & Hfm) | Hnone].
  - pose proof (get_category_first_match _ _ _ _ Hvalid Hfm) as Hc.
    pose proof (get_name_first_match _ _ _ _ Hvalid Hfm) as Hn.
    split.
    + right. exists i, r. split; [exact Hfm|]. split; [|split; assumption].
      intros i' r' Hfm'. eapply first_match_unique; eassumption.
    + intros Hplain. rewrite Hc, Hn.
      assert (r ∈ rules) as Hin
        by (eapply list_elem_of_lookup_2; apply Hfm).
      destruct (Hplain r Hin) as [Hcat Hname]. split; intros H; congruence.
  - pose proof (get_category_no_match _ _ Hvalid Hnone) as Hc.
    pose proof (get_name_no_match _ _ Hvalid Hnone) as Hn.
    split.
    + left. split; [exact Hnone|]. split; assumption.
    + intros _. rewrite Hc, Hn. split; reflexivity.
Qed.

End MatcherProperties.

(** ** The [sre] engine: a compiled pattern and the strings it denotes *)

Section SreProperties.
Import sre.

Implicit Types (r : regex) (s : string) (c : ascii).

Lemma append_nil_l s : "" +:+ s = s.
Proof. reflexivity. Qed.

Lemma append_cons c s1 s2 : String c s1 +:+ s2 = String c (s1 +:+ s2).
Proof. reflexivity. Qed.

Lemma append_empty_inv s1 s2 : s1 +:+ s2 = "" -> s1 = "" /\ s2 = "".
Proof. destruct s1; rewrite ?append_cons; [auto | discriminate]. Qed.

Lemma append_empty_r s : s +:+ "" = s.
Proof.
  induction s as [|c s IH]; rewrite ?append_cons; [reflexivity | congruence].
Qed.

Lemma append_assoc s1 s2 s3 : (s1 +:+ s2) +:+ s3 = s1 +:+ (s2 +:+ s3).
Proof.
  induction s1 as [|c s1 IH]; rewrite ?append_cons; [reflexivity | congruence].
Qed.

Lemma lang_empty_nullable r s : lang r s -> s = "" -> nullable r = true.
Proof.
  induction 1 as [ | | | r1 r2 s1 s2 _ IH1 _ IH2 | r1 r2 s _ IH | r1 r2 s _ IH
                 | | ]; intros Hs; simpl; try discriminate; try reflexivity.
  - apply append_empty_inv in Hs as [-> ->]. by rewrite IH1, IH2.
  - by rewrite IH.
  - rewrite IH by exact Hs. apply orb_true_r.
Qed.

Lemma nullable_lang r : nullable r = true <-> lang r "".
Proof.
  split; [|intros H; eapply lang_empty_nullable; [exact H | reflexivity]].
  induction r as [ | | c | | r1 IH1 r2 IH2 | r1 IH1 r2 IH2 | r IH ]; simpl;
    intros H; try discriminate.
  - constructor.
  - apply andb_true_iff in H as [H1 H2].
    apply (lang_cat r1 r2 "" ""); auto.
  - apply orb_true_iff in H as [H1 | H2];
      [apply lang_alt_l | apply lang_alt_r]; auto.
  - constructor.
Qed.

Lemma lang_deriv r w :
  lang r w -> forall c s, w = String c s -> lang (deriv c r) s.
Proof.
  induction 1 as [ | d | d Hd | r1 r2 s1 s2 H1 IH1 H2 IH2 | r1 r2 s0 _ IH
                 | r1 r2 s0 _ IH | | r0 s1 s2 H1 IH1 H2 IH2 ];
    intros c s Hw; simpl.
  - discriminate.
  - injection Hw as -> <-. rewrite Ascii.eqb_refl. constructor.
  - injection Hw as -> <-.
    destruct (Ascii.eqb c newline) eqn:Hc; [|constructor].
    apply Ascii.eqb_eq in Hc. contradiction.
  - destruct s1 as [|c1 s1']; rewrite ?append_cons, ?append_nil_l in Hw.
    + assert (nullable r1 = true) as -> by (eapply lang_empty_nullable; eauto).
      apply lang_alt_r. eapply IH2, Hw.
    + injection Hw as -> <-.
      assert (lang (Cat (deriv c r1) r2) (s1' +:+ s2)) as Hcat
        by (apply lang_cat; [eapply IH1; reflexivity | exact H2]).
      destruct (nullable r1); [apply lang_alt_l|]; exact Hcat.
  - apply lang_alt_l. eapply IH, Hw.
  - apply lang_alt_r. eapply IH, Hw.
  - discriminate.
  - destruct s1 as [|c1 s1']; rewrite ?append_cons, ?append_nil_l in Hw.
    + eapply IH2, Hw.
    + injection Hw as -> <-. apply lang_cat; [eapply IH1; reflexivity | exact H2].
Qed.

Lemma deriv_lang c r : forall s, lang (deriv c r) s -> lang r (String c s).
Proof.
  induction r as [ | | d | | r1 IH1 r2 IH2 | r1 IH1 r2 IH2 | r IH ]; simpl;
    intros s H.
  - inversion H.
  - inversion H.
  - destruct (Ascii.eqb c d) eqn:Hcd; [|inversion H].
    apply Ascii.eqb_eq in Hcd as ->. inversion H; subst. constructor.
  - destruct (Ascii.eqb c newline) eqn:Hc; [inversion H|].
    inversion H; subst. constructor. intros ->.
    rewrite Ascii.eqb_refl in Hc. discriminate.
  - assert (forall s, lang (Cat (deriv c r1) r2) s -> lang (Cat r1 r2) (String c s))
      as Hcat.
    { intros s' H'. inversion H' as [ | | | ? ? s1 s2 Ha Hb | | | | ]; subst.
      apply (lang_cat r1 r2 (String c s1) s2); auto. }
    destruct (nullable r1) eqn:Hn; [|apply Hcat, H].
    inversion H as [ | | | | ? ? ? Hl | ? ? ? Hr | | ]; subst.
    + apply Hcat, Hl.
    + apply (lang_cat r1 r2 "" (String c s)); [by apply nullable_lang | auto].
  - inversion H as [ | | | | ? ? ? Hl | ? ? ? Hr | | ]; subst.
    + apply lang_alt_l; auto.
    + apply lang_alt_r; auto.
  - inversion H as [ | | | ? ? s1 s2 Ha Hb | | | | ]; subst.
    apply (lang_star_cons r (String c s1) s2); auto.
Qed.

(** [fullmatch] decides membership of the whole string. *)
Lemma fullmatch_lang r s : fullmatch r s = true <-> lang r s.
Proof.
  revert r. induction s as [|c s IH]; intros r; simpl.
  - apply nullable_lang.
  - rewrite IH. split; [apply deriv_lang | intros H; eapply lang_deriv; eauto].
Qed.

(** [match_] holds when the string starts with a member of the language. *)
Lemma match_lang r s :
  match_ r s = true <-> exists pre suf, s = pre +:+ suf /\ lang r pre.
Proof.
  revert r. induction s as [|c s IH]; intros r; simpl.
  - rewrite orb_false_r, nullable_lang. split.
    + intros H. exists "", "". auto.
    + intros (pre & suf & Hs & H). symmetry in Hs.
      apply append_empty_inv in Hs as [-> _]. exact H.
  - rewrite orb_true_iff, nullable_lang, IH. split.
    + intros [H | (pre & suf & -> & H)].
      * exists "", (String c s). auto.
      * exists (String c pre), suf. split; [reflexivity | by apply deriv_lang].
    + intros (pre & suf & Hs & H). destruct pre as [|c' pre]; [left; exact H|].
      right. rewrite append_cons in Hs. injection Hs as <- ->. exists pre, suf.
      split; [reflexivity | eapply lang_deriv; eauto].
Qed.

(** [search] holds when a member of the language starts somewhere. *)
Lemma search_lang r s :
  search r s = true <->
  exists skipped pre suf, s = skipped +:+ pre +:+ suf /\ lang r pre.
Proof.
  induction s as [|c s IH]; simpl.
  - rewrite !orb_false_r, nullable_lang. split.
    + intros H. exists "", "", "". auto.
    + intros (sk & pre & suf & Hs & H). symmetry in Hs.
      apply append_empty_inv in Hs as [_ Hs].
      apply append_empty_inv in Hs as [-> _]. exact H.
  - rewrite orb_true_iff, IH.
    change (nullable r || match_ (deriv c r) s) with (match_ r (String c s)).
    rewrite match_lang. split.
    + intros [(pre & suf & Hs & H) | (sk & pre & suf & -> & H)].
      * exists "", pre, suf. auto.
      * exists (String c sk), pre, suf. auto.
    + intros (sk & pre & suf & Hs & H). destruct sk as [|c' sk].
      * left. exists pre, suf. auto.
      * right. rewrite append_cons in Hs. injection Hs as <- ->.
        exists sk, pre, suf. auto.
Qed.

Lemma fullmatch_match r s : fullmatch r s = true -> match_ r s = true.
Proof.
  rewrite fullmatch_lang, match_lang. intros H. exists s, "".
  by rewrite append_empty_r.
Qed.

Lemma match_search r s : match_ r s = true -> search r s = true.
Proof. destruct s; simpl; intros ->; reflexivity. Qed.

Lemma sre_re_match p r s :
  parse p = Parsed r -> re_match p (PyStr s) = Return (match_ r s).
Proof.
  intros Hp. unfold re_match. simpl. unfold compile. rewrite Hp. reflexivity.
Qed.


End SreProperties.

(** ** Construction of the assigner *)

Section ConstructionProperties.
Context {E : ReEngine}.

Lemma from_json_loop_records document rules acc :
  Forall2 record_of document rules ->
  from_json_loop document acc = Return (acc ++ rules).
Proof.
  intros H. revert acc.
  induction H as [|item r document rules (Hn & Hr & Hc) _ IH]; intros acc; simpl.
  - by rewrite app_nil_r.
  - unfold getitem. rewrite Hn, Hr, Hc. simpl. rewrite IH.
    destruct r as [[regex nm] cat]. simpl. by rewrite <- app_assoc.
Qed.

(** [from_json] needs the three keys of every record and nothing else. *)
Lemma from_json_records document rules :
  Forall2 record_of document rules -> from_json document = Return (__init__ rules).
Proof.
  intros H. unfold from_json.
  by rewrite (from_json_loop_records _ _ [] H).
Qed.

(** A pattern that does not compile raises when its rule is reached. *)
Lemma get_category_reaches_invalid before r after s :
  Forall valid_rule before -> no_match before s ->
  re_compile (rule_regex r) = None ->
  get_category (__init__ (before ++ r :: after)) (PyStr s) = Raise re_error.
Proof.
  intros Hvalid Hnone Hbad.
  induction Hvalid as [|r0 before Hr0 _ IH]; simpl app.
  - by rewrite get_category_cons, re_match_invalid.
  - apply no_match_cons in Hnone as [H0 Hnone].
    rewrite get_category_cons, (re_match_valid _ _ Hr0). simpl. rewrite H0.
    apply IH, Hnone.
Qed.

Lemma get_name_reaches_invalid before r after s :
  Forall valid_rule before -> no_match before s ->
  re_compile (rule_regex r) = None ->
  get_name (__init__ (before ++ r :: after)) (PyStr s) = Raise re_error.
Proof.
  intros Hvalid Hnone Hbad.
  induction Hvalid as [|r0 before Hr0 _ IH]; simpl app.
  - by rewrite get_name_cons, re_match_invalid.
  - apply no_match_cons in Hnone as [H0 Hnone].
    rewrite get_name_cons, (re_match_valid _ _ Hr0). simpl. rewrite H0.
    apply IH, Hnone.
Qed.

(** C4, as the code has it. [from_json] compiles no pattern: it returns
    an assigner for every rules document whose records hold the keys
    [name], [regex] and [category], also when a pattern does not compile.
    Such a pattern raises [re.error] at match time: [get_category] and
    [get_name] raise it for a counterparty string when the rule is
    reached, that is when the rules before it compile and none of them
    matches. *)
Theorem C4_patterns_compile_at_match_time document before r after s
    (Hdoc : Forall2 record_of document (before ++ r :: after))
    (Hvalid : Forall valid_rule before)
    (Hnone : no_match before s)
    (Hbad : re_compile (rule_regex r) = None) :
  exists self,
    from_json document = Return self /\
    _regex_map self = before ++ r :: after /\
    get_category self (PyStr s) = Raise re_error /\
    get_name self (PyStr s) = Raise re_error.
Proof.
  exists (__init__ (before ++ r :: after)). split; [|split; [|split]].
  - by apply from_json_records.
  - reflexivity.
  - by apply get_category_reaches_invalid.
  - by apply get_name_reaches_invalid.
Qed.

End ConstructionProperties.

(** C4, as stated, fails on the rules file [broken_rules], whose only
    pattern is "(": the library rejects the pattern, yet [from_json]
    returns an assigner, and the calls on this assigner raise [re.error]. *)
Lemma C4_counterexample :
  sre.parse "(" = sre.Malformed /\
  from_json broken_rules = Return (__init__ [("(", "Broken", "misc")]) /\
  get_category (__init__ [("(", "Broken", "misc")]) (PyStr "ACME CORP")
    = Raise re_error /\
  get_name (__init__ [("(", "Broken", "misc")]) (PyStr "ACME CORP")
    = Raise re_error.
Proof. repeat split. Qed.

(** C4 on the rules of the example followed by the broken rule. *)
Lemma C4_patterns_compile_at_match_time_witness :
  Forall2 record_of (example_rules ++ broken_rules)
    (_regex_map example_assigner ++ ("(", "Broken", "misc") :: []) /\
  Forall (@valid_rule sre_engine) (_regex_map example_assigner) /\
  @no_match sre_engine (_regex_map example_assigner) "ACME CORP" /\
  @re_compile sre_engine (rule_regex ("(", "Broken", "misc")) = None /\
  exists self,
    from_json (example_rules ++ broken_rules) = Return self /\
    _regex_map self = _regex_map example_assigner ++ ("(", "Broken", "misc") :: [] /\
    get_category self (PyStr "ACME CORP") = Raise re_error /\
    get_name self (PyStr "ACME CORP") = Raise re_error.
Proof.
  assert (Forall2 record_of (example_rules ++ broken_rules)
            (_regex_map example_assigner ++ ("(", "Broken", "misc") :: []))
    as Hdoc by (repeat constructor; reflexivity).
  assert (Forall (@valid_rule sre_engine) (_regex_map example_assigner))
    as Hvalid by (repeat constructor; eexists; reflexivity).
  assert (@no_match sre_engine (_regex_map example_assigner) "ACME CORP")
    as Hnone.
  { intros r Hr.
    repeat (apply elem_of_cons in Hr as [-> | Hr]; [reflexivity|]).
    inversion Hr. }
  assert (@re_compile sre_engine (rule_regex ("(", "Broken", "misc")) = None)
    as Hbad by reflexivity.
  split; [exact Hdoc|]. split; [exact Hvalid|]. split; [exact Hnone|].
  split; [exact Hbad|].
  exact (C4_patterns_compile_at_match_time (example_rules ++ broken_rules)
           (_regex_map example_assigner) ("(", "Broken", "misc") []
           "ACME CORP" Hdoc Hvalid Hnone Hbad).
Defined.

(** ** Column-wise steps *)

Lemma bind_Return {A B : Type} (m : outcome A) (k : A -> outcome B) y :
  (x ← m; k x) = Return y -> exists x, m = Return x /\ k x = Return y.
Proof. destruct m as [x|e]; [eauto | discriminate]. Qed.

Section MapM.
Context {A B : Type} (f : A -> outcome B).

Lemma mapM_nil : mapM f [] = Return [].
Proof. reflexivity. Qed.

Lemma mapM_cons x l :
  mapM f (x :: l) =
  match f x with
  | Return y =>
      match mapM f l with
      | Return k => Return (y :: k)
      | Raise e => Raise e
      end
  | Raise e => Raise e
  end.
Proof. reflexivity. Qed.

(** A step over a column returns when it returns on every element, and
    then element by element, in order. *)
Lemma mapM_Return l k :
  mapM f l = Return k <-> Forall2 (fun x y => f x = Return y) l k.
Proof.
  revert k. induction l as [|x l IH]; intros k.
  - rewrite mapM_nil. split.
    + intros [= <-]. constructor.
    + intros H. inversion H. reflexivity.
  - rewrite mapM_cons. split.
    + destruct (f x) as [y|e] eqn:Hx; [|discriminate].
      destruct (mapM f l) as [k'|e] eqn:Hl; [|discriminate].
      intros [= <-]. constructor; [exact Hx | by apply IH].
    + intros H. inversion H as [|? y ? k' Hx Hl]; subst.
      rewrite Hx. apply IH in Hl. rewrite Hl. reflexivity.
Qed.

(** It raises as soon as one element does. *)
Lemma mapM_Raise l x e :
  x ∈ l -> f x = Raise e -> exists e', mapM f l = Raise e'.
Proof.
  intros Hin Hx. induction Hin as [x l | x x0 l _ IH]; rewrite mapM_cons.
  - rewrite Hx. eauto.
  - destruct (f x0) as [y|e0]; [|eauto].
    destruct (IH Hx) as [e' ->]. eauto.
Qed.

Lemma mapM_Raise_inv l e :
  mapM f l = Raise e -> exists x, x ∈ l /\ f x = Raise e.
Proof.
  induction l as [|x l IH]; rewrite ?mapM_cons; [discriminate|].
  destruct (f x) as [y|e0] eqn:Hx.
  - destruct (mapM f l) as [k|e1]; [discriminate|]. intros [= ->].
    destruct IH as (x' & Hin & Hx'); [reflexivity|].
    exists x'. split; [by right | exact Hx'].
  - intros [= ->]. exists x. split; [by left | exact Hx].
Qed.

End MapM.

(** ** Loading the statement *)

Section StatementProperties.
Context {E : ReEngine} {N : Numeric}.

Implicit Types (lines : list string) (names : list string)
  (data : list (list string)) (a : CategoryAssigner).

(** Filling a line up and dropping the index fields leaves, at position
    [i], the cell that the line gives for column [i]. *)
Lemma nth_drop_pad lead width i (fields : list string) :
  nth i (drop lead (pad width (cell_of <$> fields))) PyNaN = cell lead i fields.
Proof.
  unfold cell, pad. rewrite !nth_lookup, lookup_drop.
  destruct (decide (lead + i < length (cell_of <$> fields))) as [Hlt|Hge].
  - by rewrite lookup_app_l.
  - rewrite lookup_app_r by lia.
    rewrite (lookup_ge_None_2 (cell_of <$> fields)) by lia. simpl.
    destruct (replicate _ PyNaN !! _) as [x|] eqn:Hx; [|reflexivity].
    apply lookup_replicate in Hx as [-> _]. reflexivity.
Qed.

(** A field that the line does not have is a missing cell. *)
Lemma cell_beyond lead i (fields : list string) :
  length fields <= lead + i -> cell lead i fields = PyNaN.
Proof.
  intros H. unfold cell. rewrite nth_lookup.
  rewrite lookup_ge_None_2; [reflexivity|]. by rewrite length_fmap.
Qed.

Lemma read_csv_records lines names data :
  records ";" 17 lines = names :: data ->
  read_csv lines ";" 17 = Raise ParserError \/
  exists df, read_csv lines ";" 17 = Return df /\ columns df = names /\
    forall i, column i df = cell (index_width names data) i <$> data.
Proof.
  intros Hrec. unfold read_csv. rewrite Hrec.
  match goal with |- context [existsb ?p data] => destruct (existsb p data) end;
    [left; reflexivity | right].
  eexists. split; [reflexivity|]. split; [reflexivity|].
  intros i. unfold column. simpl. rewrite <- list_fmap_compose.
  apply list_fmap_ext. intros _ r _. simpl. rewrite nth_drop_pad.
  f_equal. unfold index_width. destruct data as [|first rest]; lia.
Qed.

Lemma read_csv_no_records lines :
  records ";" 17 lines = [] -> read_csv lines ";" 17 = Raise EmptyDataError.
Proof. intros Hrec. unfold read_csv. by rewrite Hrec. Qed.

(** Only the lines after the first 17 are read. *)
Lemma _parse_skips_17 a lines lines' :
  drop 17 lines' = drop 17 lines -> _parse a lines' = _parse a lines.
Proof.
  intros H. unfold _parse, read_csv, records. rewrite H. reflexivity.
Qed.

(** The steps of [_parse] on the columns that the data lines give. *)
Lemma _parse_steps a lines names data :
  records ";" 17 lines = names :: data ->
  read_csv lines ";" 17 <> Raise ParserError ->
  18 < length names ->
  let lead := index_width names data in
  _parse a lines =
  (d ← mapM slice10 (cell lead 18 <$> data);
   d ← mapM to_datetime (zip_with date_or_due (cell lead 0 <$> data) d);
   due ← mapM to_datetime (cell lead 0 <$> data);
   am ← mapM to_numeric (str_replace <$> (cell lead 4 <$> data));
   cat ← mapM (get_category a) (cell lead 15 <$> data);
   nm ← mapM (get_name a) (cell lead 15 <$> data);
   Return {| due_date := due; amount := am;
             counterparty := cell lead 15 <$> data; date := d;
             category := cat; name := nm |}).
Proof.
  intros Hrec Hok Hwide lead.
  destruct (read_csv_records _ _ _ Hrec) as [Hbad | (df & Hdf & Hcols & Hcol)];
    [contradiction|].
  unfold _parse. rewrite Hdf. simpl. rewrite Hcols.
  destruct (length names <=? 18) eqn:Hle; [apply Nat.leb_le in Hle; lia|].
  simpl. rewrite !Hcol. reflexivity.
Qed.

Lemma _parse_Return_records a lines df :
  _parse a lines = Return df ->
  exists names data,
    records ";" 17 lines = names :: data /\
    read_csv lines ";" 17 <> Raise ParserError /\ 18 < length names.
Proof.
  intros Hload. destruct (records ";" 17 lines) as [|names data] eqn:Hrec.
  - unfold _parse in Hload. by rewrite (read_csv_no_records _ Hrec) in Hload.
  - exists names, data. split; [reflexivity|].
    destruct (read_csv_records _ _ _ Hrec) as [Hbad | (raw & Hraw & Hcols & _)].
    + unfold _parse in Hload. by rewrite Hbad in Hload.
    + split; [congruence|]. unfold _parse in Hload. rewrite Hraw in Hload.
      simpl in Hload. rewrite Hcols in Hload.
      destruct (length names <=? 18) eqn:Hle; [discriminate|].
      apply Nat.leb_gt in Hle. lia.
Qed.

Lemma Forall2_date_column lead data (sliced : list string) dates :
  Forall2 (fun fields s => slice10 (cell lead 18 fields) = Return s) data sliced ->
  Forall2 (fun v ts => to_datetime v = Return ts)
    (zip_with date_or_due (cell lead 0 <$> data) sliced) dates ->
  Forall2 (fun fields ts => exists s,
      cell lead 18 fields = PyStr s /\
      to_datetime (date_or_due (cell lead 0 fields) (slice_to 10 s)) = Return ts)
    data dates.
Proof.
  intros H. revert dates.
  induction H as [|fields s data sliced Hs _ IH]; intros dates Hd; simpl in Hd.
  - inversion Hd. constructor.
  - inversion Hd as [|? ts ? dates' Hts Hrest]; subst. constructor; [|by apply IH].
    destruct (cell lead 18 fields) as [s0|]; [|discriminate].
    injection Hs as <-. eauto.
Qed.

(** What a successful load says about every column. *)
Lemma _parse_Return a lines df :
  _parse a lines = Return df ->
  exists names data,
    records ";" 17 lines = names :: data /\ 18 < length names /\
    let lead := index_width names data in
    Forall2 (fun fields ts => exists s,
        cell lead 18 fields = PyStr s /\
        to_datetime (date_or_due (cell lead 0 fields) (slice_to 10 s)) = Return ts)
      data (date df) /\
    Forall2 (fun fields ts => to_datetime (cell lead 0 fields) = Return ts)
      data (due_date df) /\
    Forall2 (fun fields x => to_numeric (str_replace (cell lead 4 fields)) = Return x)
      data (amount df) /\
    counterparty df = cell lead 15 <$> data /\
    Forall2 (fun fields c => get_category a (cell lead 15 fields) = Return c)
      data (category df) /\
    Forall2 (fun fields n => get_name a (cell lead 15 fields) = Return n)
      data (name df).
Proof.
  intros Hload.
  destruct (_parse_Return_records _ _ _ Hload) as (names & data & Hrec & Hok & Hwide).
  exists names, data. split; [exact Hrec|]. split; [exact Hwide|]. intros lead.
  rewrite (_parse_steps a _ _ _ Hrec Hok Hwide) in Hload. fold lead in Hload.
  apply bind_Return in Hload as (sliced & H1 & Hload).
  apply bind_Return in Hload as (d & H2 & Hload).
  apply bind_Return in Hload as (due & H3 & Hload).
  apply bind_Return in Hload as (am & H4 & Hload).
  apply bind_Return in Hload as (cat & H5 & Hload).
  apply bind_Return in Hload as (nm & H6 & Hload).
  injection Hload as <-. simpl.
  apply mapM_Return in H1, H2, H3, H4, H5, H6.
  rewrite Forall2_fmap_l in H1. rewrite Forall2_fmap_l in H3.
  rewrite !Forall2_fmap_l in H4. rewrite Forall2_fmap_l in H5.
  rewrite Forall2_fmap_l in H6.
  split; [eapply Forall2_date_column; eassumption|].
  repeat split; assumption.
Qed.

End StatementProperties.

(** ** Reading dates *)

Lemma digit_char_spec k :
  k < 10 ->
  is_digit (digit_char k) = true /\ digit (digit_char k) = k /\
  Ascii.eqb (digit_char k) "." = false.
Proof.
  intros H. do 10 (destruct k as [|k]; [repeat split; reflexivity|]). lia.
Qed.

Lemma split_not_nil sep s : split sep s <> [].
Proof.
  destruct s as [|c s]; simpl; [discriminate|].
  destruct (Ascii.eqb c sep); [discriminate|]. destruct (split sep s); discriminate.
Qed.

Lemma split_no_sep sep s t :
  split sep s = [s] -> split sep (s +:+ String sep t) = s :: split sep t.
Proof.
  induction s as [|c s IH]; intros Hs.
  - simpl. by rewrite Ascii.eqb_refl.
  - change (String c s +:+ String sep t) with (String c (s +:+ String sep t)).
    simpl in *. destruct (Ascii.eqb c sep); [discriminate|].
    destruct (split sep s) as [|f fs] eqn:Hsplit;
      [by apply split_not_nil in Hsplit|].
    injection Hs as -> ->. rewrite IH; reflexivity.
Qed.

Lemma split_two_chars a b :
  Ascii.eqb a "." = false -> Ascii.eqb b "." = false ->
  split "." (String a (String b EmptyString)) = [String a (String b EmptyString)].
Proof. intros Ha Hb. cbn [split]. rewrite Ha, Hb. reflexivity. Qed.

Lemma split_two_digits n : n < 100 -> split "." (two_digits n) = [two_digits n].
Proof.
  intros H. unfold two_digits.
  destruct (digit_char_spec (n / 10)) as (_ & _ & H1);
    [apply Nat.Div0.div_lt_upper_bound; lia|].
  destruct (digit_char_spec (n mod 10)) as (_ & _ & H2);
    [apply Nat.mod_upper_bound; lia|].
  by apply split_two_chars.
Qed.

Lemma four_chars_spec a b c d :
  is_digit a = true -> is_digit b = true -> is_digit c = true ->
  is_digit d = true ->
  Ascii.eqb a "." = false -> Ascii.eqb b "." = false ->
  Ascii.eqb c "." = false -> Ascii.eqb d "." = false ->
  split "." (String a (String b (String c (String d EmptyString)))) =
    [String a (String b (String c (String d EmptyString)))] /\
  directive_Y (String a (String b (String c (String d EmptyString)))) =
    Some (1000 * digit a + 100 * digit b + 10 * digit c + digit d).
Proof.
  intros A1 B1 C1 D1 A3 B3 C3 D3. split.
  - cbn [split]. rewrite A3, B3, C3, D3. reflexivity.
  - unfold directive_Y. rewrite A1, B1, C1, D1. reflexivity.
Qed.

Lemma four_digits_spec y :
  y < 100 * 100 ->
  split "." (four_digits y) = [four_digits y] /\
  directive_Y (four_digits y) = Some y.
Proof.
  intros H. unfold four_digits.
  destruct (digit_char_spec (y / 1000)) as (A1 & A2 & A3);
    [apply Nat.Div0.div_lt_upper_bound; lia|].
  destruct (digit_char_spec (y / 100 mod 10)) as (B1 & B2 & B3);
    [apply Nat.mod_upper_bound; lia|].
  destruct (digit_char_spec (y / 10 mod 10)) as (C1 & C2 & C3);
    [apply Nat.mod_upper_bound; lia|].
  destruct (digit_char_spec (y mod 10)) as (D1 & D2 & D3);
    [apply Nat.mod_upper_bound; lia|].
  destruct (four_chars_spec _ _ _ _ A1 B1 C1 D1 A3 B3 C3 D3) as [Hs HY].
  split; [exact Hs|]. rewrite HY, A2, B2, C2, D2. f_equal.
  pose proof (Nat.div_mod_eq y 10) as E1.
  pose proof (Nat.div_mod_eq (y / 10) 10) as E2.
  pose proof (Nat.div_mod_eq (y / 100) 10) as E3.
  rewrite (Nat.Div0.div_div y 10 10) in E2.
  rewrite (Nat.Div0.div_div y 100 10) in E3.
  change (10 * 10) with 100 in E2. change (100 * 10) with 1000 in E3.
  assert (y / 1000 < 10) as E4 by (apply Nat.Div0.div_lt_upper_bound; lia).
  generalize dependent (y / 1000). generalize dependent (y / 100 mod 10).
  generalize dependent (y / 10 mod 10). generalize dependent (y mod 10).
  generalize dependent (y / 100). generalize dependent (y / 10).
  intros. lia.
Qed.

Lemma directive_d_two_digits n :
  1 <= n <= 31 -> directive_d (two_digits n) = Some n.
Proof.
  intros H. destruct n as [|n]; [lia|].
  do 31 (destruct n as [|n]; [reflexivity|]). lia.
Qed.

Lemma directive_m_two_digits n :
  1 <= n <= 12 -> directive_m (two_digits n) = Some n.
Proof.
  intros H. destruct n as [|n]; [lia|].
  do 12 (destruct n as [|n]; [reflexivity|]). lia.
Qed.

(** A calendar date written DD.MM.YYYY is read as that date. *)
Lemma strptime_text_dmY d :
  1 <= year d < 100 * 100 -> 1 <= month d <= 12 ->
  1 <= day d <= days_in_month (year d) (month d) ->
  strptime_dmY (text_dmY d) = Some d.
Proof.
  destruct d as [y m dd]. cbn [year month day]. intros Hy Hm Hd.
  assert (dd <= 31) as Hd31.
  { destruct Hd as [_ Hd]. unfold days_in_month in Hd.
    do 13 (destruct m as [|m]; [destruct (is_leap y); lia|]).
    lia. }
  unfold strptime_dmY, text_dmY. cbn [year month day].
  rewrite !append_cons, !append_nil_l.
  rewrite (split_no_sep "." (two_digits dd)) by (apply split_two_digits; lia).
  rewrite (split_no_sep "." (two_digits m)) by (apply split_two_digits; lia).
  destruct (four_digits_spec y) as [-> HY]; [lia|]. cbv beta iota.
  rewrite directive_d_two_digits by lia. cbn [mbind option_bind].
  rewrite directive_m_two_digits by lia. cbn [mbind option_bind].
  rewrite HY. cbn [mbind option_bind].
  destruct (1 <=? y) eqn:H1; [|apply Nat.leb_gt in H1; lia].
  destruct (dd <=? days_in_month y m) eqn:H2; [reflexivity|].
  apply Nat.leb_gt in H2. lia.
Qed.

Section LoadClaims.
Context {E : ReEngine} {N : Numeric}.

Implicit Types (lines : list string) (a : CategoryAssigner).




End LoadClaims.





(** The load of [short_row_statement] raises [TypeError]. *)
Example short_row_statement_raises :
  _parse example_assigner short_row_statement = Raise TypeError.
Proof. reflexivity. Qed.

(** ** The reports *)

Section ReportProperties.
Context {E : ReEngine} {N : Numeric}.

Implicit Types (h : store) (self : StatementData) (df : DataFrame).

(** A new object does not take the reference of an object of the store. *)
Lemma lookup_fresh_ne h l o : h !! l = Some o -> l <> fresh (dom h).
Proof.
  intros H ->.
  assert (fresh (dom h) ∈ dom h) as Hin by (rewrite elem_of_dom; eauto).
  by apply is_fresh in Hin.
Qed.

Lemma alloc_spec o h l h' :
  alloc o h = (l, h') ->
  h' !! l = Some o /\ forall l0 x, h !! l0 = Some x -> h' !! l0 = Some x /\ l0 <> l.
Proof.
  unfold alloc. intros [= <- <-]. split; [apply lookup_insert_eq|].
  intros l0 x Hx. pose proof (lookup_fresh_ne _ _ _ Hx) as Hne.
  split; [by rewrite lookup_insert_ne | exact Hne].
Qed.

Lemma load_SpentFrame_eq h l f :
  h !! l = Some (OSpentFrame f) -> load_SpentFrame h l = Some f.
Proof. intros H. unfold load_SpentFrame. by rewrite H. Qed.

Lemma load_Grouped_eq h l g :
  h !! l = Some (OGrouped g) -> load_Grouped h l = Some g.
Proof. intros H. unfold load_Grouped. by rewrite H. Qed.

Lemma load_DataFrame_eq h l df :
  h !! l = Some (ODataFrame df) -> load_DataFrame h l = Some df.
Proof. intros H. unfold load_DataFrame. by rewrite H. Qed.

Lemma show_expense_pie_chart_spec self h df :
  h !! _df self = Some (ODataFrame df) ->
  exists h',
    show_expense_pie_chart self h =
      Some ({| slices :=
                 groupby_sum
                   {| spent_amount :=
                        num_neg <$> select (num_lt0 <$> amount df) (amount df);
                      spent_category :=
                        select (num_lt0 <$> amount df) (category df) |};
               spent_total :=
                 series_sum
                   (snd <$> groupby_sum
                      {| spent_amount :=
                           num_neg <$> select (num_lt0 <$> amount df) (amount df);
                         spent_category :=
                           select (num_lt0 <$> amount df) (category df) |}) |},
            h') /\
    forall l o, h !! l = Some o -> h' !! l = Some o.
Proof.
  intros Hdf. unfold show_expense_pie_chart.
  rewrite (load_DataFrame_eq _ _ _ Hdf). cbn [mbind option_bind].
  match goal with |- context [alloc ?o h] =>
    destruct (alloc o h) as [two h1] eqn:Ha1 end.
  apply alloc_spec in Ha1 as [Htwo Hold1]. cbv beta iota.
  rewrite (load_SpentFrame_eq _ _ _ Htwo). cbn [mbind option_bind].
  cbn [spent_amount spent_category].
  match goal with |- context [alloc ?o h1] =>
    destruct (alloc o h1) as [df_spent h2] eqn:Ha2 end.
  apply alloc_spec in Ha2 as [Hspent Hold2]. cbv beta iota.
  rewrite (load_SpentFrame_eq _ _ _ Hspent). cbn [mbind option_bind].
  cbn [spent_amount spent_category].
  rewrite (load_SpentFrame_eq _ _ _ (lookup_insert_eq _ _ _)).
  cbn [mbind option_bind].
  match goal with |- context [alloc ?o ?hh] =>
    destruct (alloc o hh) as [grouped h4] eqn:Ha4 end.
  apply alloc_spec in Ha4 as [Hgrouped Hold4]. cbv beta iota.
  rewrite (load_Grouped_eq _ _ _ Hgrouped). cbn [mbind option_bind].
  eexists. split; [reflexivity|].
  intros l o Hl.
  destruct (Hold1 l o Hl) as [Hl1 _].
  destruct (Hold2 l o Hl1) as [Hl2 Hne2].
  apply Hold4. by rewrite lookup_insert_ne.
Qed.


Lemma filter_cons_bool {A : Type} (f : A -> bool) x (l : list A) :
  filter (fun y => f y) (x :: l) =
  if f x then x :: filter (fun y => f y) l else filter (fun y => f y) l.
Proof.
  rewrite filter_cons. destruct (f x); reflexivity.
Qed.

(** The categories left by the mask are those of the expense rows. *)
Lemma select_categories (A : list num) (C : list string) :
  select (num_lt0 <$> A) C =
  snd <$> filter (fun row => num_lt0 row.1) (zip A C).
Proof.
  revert C. induction A as [|x A IH]; intros [|c C]; try reflexivity.
  simpl zip_with. rewrite filter_cons_bool. simpl.
  destruct (num_lt0 x); simpl; by rewrite IH.
Qed.

(** The negated amounts of a group are the magnitudes of its category. *)
Lemma select_group k (A : list num) (C : list string) :
  select (String.eqb k <$> select (num_lt0 <$> A) C)
         (num_neg <$> select (num_lt0 <$> A) A) =
  (fun row => num_neg row.1) <$>
  filter (fun row => String.eqb k row.2)
         (filter (fun row => num_lt0 row.1) (zip A C)).
Proof.
  revert C. induction A as [|x A IH]; intros [|c C]; try reflexivity.
  simpl zip_with. rewrite filter_cons_bool. simpl.
  destruct (num_lt0 x); simpl; [|apply IH].
  rewrite filter_cons_bool. simpl.
  destruct (String.eqb k c); simpl; by rewrite IH.
Qed.

Lemma elem_of_insert_key k keys x :
  x ∈ insert_key k keys <-> x = k \/ x ∈ keys.
Proof.
  induction keys as [|k' keys IH]; simpl.
  - rewrite list_elem_of_singleton, elem_of_nil. tauto.
  - destruct (String_as_OT.compare_spec k k') as [Heq | Hlt | Hgt].
    + change (k = k') in Heq. subst k'. rewrite elem_of_cons. tauto.
    + apply elem_of_cons.
    + rewrite !elem_of_cons, IH. tauto.
Qed.

Lemma sorted_insert_key k keys :
  StronglySorted String_as_OT.lt keys ->
  StronglySorted String_as_OT.lt (insert_key k keys).
Proof.
  induction 1 as [|k' keys Hsorted IH Hall]; simpl.
  - repeat constructor.
  - destruct (String_as_OT.compare_spec k k') as [Heq | Hlt | Hgt].
    + by constructor.
    + constructor; [by constructor|]. constructor; [exact Hlt|].
      eapply Forall_impl; [exact Hall|]. intros y Hy. simpl in Hy.
      by transitivity k'.
    + constructor; [exact IH|]. apply Forall_forall. intros y Hy.
      apply elem_of_insert_key in Hy as [-> | Hy]; [exact Hgt|].
      by eapply Forall_forall in Hall.
Qed.

Lemma elem_of_group_keys col x : x ∈ group_keys col <-> x ∈ col.
Proof.
  induction col as [|c col IH]; simpl; [reflexivity|].
  rewrite elem_of_insert_key, IH, elem_of_cons. tauto.
Qed.

Lemma sorted_group_keys col : StronglySorted String_as_OT.lt (group_keys col).
Proof.
  induction col as [|c col IH]; simpl; [constructor | by apply sorted_insert_key].
Qed.

Lemma NoDup_sorted keys : StronglySorted String_as_OT.lt keys -> NoDup keys.
Proof.
  induction 1 as [|k keys _ IH Hall]; constructor; [|exact IH].
  intros Hin. eapply Forall_forall in Hall; [|exact Hin].
  by apply (irreflexivity String_as_OT.lt k).
Qed.

Lemma groupby_sum_keys (f : SpentFrame) :
  (groupby_sum f).*1 = group_keys (spent_category f).
Proof.
  unfold groupby_sum. rewrite <- list_fmap_compose.
  rewrite <- (list_fmap_id (group_keys _)) at 2. by apply list_fmap_ext.
Qed.

Lemma elem_of_groupby_sum (f : SpentFrame) k v :
  (k, v) ∈ groupby_sum f <->
  k ∈ spent_category f /\
  v = group_sum (select (String.eqb k <$> spent_category f) (spent_amount f)).
Proof.
  unfold groupby_sum. rewrite list_elem_of_fmap. split.
  - intros (k' & Heq & Hk). injection Heq as -> ->.
    apply (proj1 (elem_of_group_keys _ _)) in Hk. split; [exact Hk | reflexivity].
  - intros [Hk ->]. exists k.
    split; [reflexivity | exact (proj2 (elem_of_group_keys _ _) Hk)].
Qed.

Lemma elem_of_expense_rows df x k :
  (x, k) ∈ expense_rows df <->
  num_lt0 x = true /\
  exists i, amount df !! i = Some x /\ category df !! i = Some k.
Proof.
  unfold expense_rows. rewrite list_elem_of_filter. simpl.
  rewrite Is_true_true, list_elem_of_lookup.
  split; intros [Hneg [i Hi]]; (split; [exact Hneg|]); exists i.
  - apply lookup_zip_with_Some in Hi as (x' & k' & [= -> ->] & ? & ?). auto.
  - destruct Hi as [Hx Hk]. apply lookup_zip_with_Some. eauto.
Qed.


(** Construction stores the parsed table as a new object. *)
Lemma StatementData__init___stores_the_table statement categories h self h' :
  StatementData__init__ statement categories h = Return (self, h') ->
  exists df,
    _parse (_category_assigner self) statement = Return df /\
    h' !! _df self = Some (ODataFrame df) /\
    forall l o, h !! l = Some o -> h' !! l = Some o.
Proof.
  unfold StatementData__init__. intros H.
  apply bind_Return in H as (assigner & _ & H).
  apply bind_Return in H as (df & Hparse & H).
  destruct (alloc (ODataFrame df) h) as [l h1] eqn:Ha.
  injection H as <- <-. apply alloc_spec in Ha as [Hnew Hold].
  exists df. split; [exact Hparse|]. split; [exact Hnew|].
  intros l0 o Hl0. by apply Hold.
Qed.

(** C7. The slices of the expense chart are computed from exactly the rows
    with a strictly negative amount: there is one slice per category that
    has such a row, and its value is the sum of the negated amounts of
    these rows; rows with a zero or positive amount, and categories that
    have only such rows, contribute nothing. For the three rows of the
    example, -10, -5 and 20 in "food", the slices are "food": 15. *)
Theorem C7_expense_summary self h df
    (Hdf : h !! _df self = Some (ODataFrame df)) :
  exists c h',
    show_expense_pie_chart self h = Some (c, h') /\
    (forall k v, (k, v) ∈ slices c <->
       (exists x, (x, k) ∈ expense_rows df) /\
       v = group_sum (magnitudes k df)) /\
    NoDup (slices c).*1 /\
    (forall x k, (x, k) ∈ expense_rows df <->
       num_lt0 x = true /\
       exists i, amount df !! i = Some x /\ category df !! i = Some k) /\
    fst <$> @show_expense_pie_chart decimal_numeric food_self food_store =
      Some food_chart.
Proof.
  destruct (show_expense_pie_chart_spec self h df Hdf) as (h' & Hrun & _).
  eexists _, h'. split; [exact Hrun|]. cbn [slices].
  split; [|split; [|split]].
  - intros k v. rewrite elem_of_groupby_sum. cbn [spent_category spent_amount].
    rewrite select_group, select_categories, list_elem_of_fmap.
    unfold magnitudes, expense_rows. split.
    + intros [([x k'] & -> & Hrow) ->]. split; [exists x; exact Hrow | reflexivity].
    + intros [[x Hrow] ->]. split; [exists (x, k); auto | reflexivity].
  - rewrite groupby_sum_keys. apply NoDup_sorted, sorted_group_keys.
  - apply elem_of_expense_rows.
  - reflexivity.
Qed.

Lemma print_unknown_categories_spec self h df :
  h !! _df self = Some (ODataFrame df) ->
  exists frame,
    print_unknown_categories self h = Some (frame, h) /\
    forall h0, h0 !! _df self = Some (ODataFrame df) ->
               print_unknown_categories self h0 = Some (frame, h0).
Proof.
  intros Hdf. eexists. split.
  - unfold print_unknown_categories. rewrite (load_DataFrame_eq _ _ _ Hdf).
    reflexivity.
  - intros h0 Hdf0. unfold print_unknown_categories.
    rewrite (load_DataFrame_eq _ _ _ Hdf0). reflexivity.
Qed.

Lemma calls_spec self df reps :
  forall h, h !! _df self = Some (ODataFrame df) ->
  exists outs h',
    calls self reps h = Some (outs, h') /\
    (forall l o, h !! l = Some o -> h' !! l = Some o) /\
    (forall frame, Printed frame ∈ outs ->
       print_unknown_categories self h = Some (frame, h)).
Proof.
  induction reps as [|rep reps IH]; intros h Hdf.
  - exists [], h. split; [reflexivity|]. split; [auto|].
    intros frame Hin. inversion Hin.
  - assert (exists out h1, call self rep h = Some (out, h1) /\
              (forall l o, h !! l = Some o -> h1 !! l = Some o) /\
              (forall frame, out = Printed frame ->
                 print_unknown_categories self h = Some (frame, h)))
      as (out & h1 & Hcall & Hold1 & Hout).
    { destruct rep; simpl.
      - destruct (print_unknown_categories_spec self h df Hdf) as (fr & Hp & _).
        rewrite Hp. simpl. exists (Printed fr), h.
        split; [reflexivity|]. split; [auto|]. by intros frame [= <-].
      - destruct (show_expense_pie_chart_spec self h df Hdf) as (h1 & Hrun & Hold).
        rewrite Hrun. simpl. eexists _, h1.
        split; [reflexivity|]. split; [exact Hold|]. intros frame [=]. }
    destruct (IH h1 (Hold1 _ _ Hdf)) as (outs & h' & Hcalls & Hold & Houts).
    exists (out :: outs), h'. split; [|split].
    + simpl. rewrite Hcall. simpl. rewrite Hcalls. reflexivity.
    + intros l o Hl. apply Hold, Hold1, Hl.
    + intros frame Hin. apply elem_of_cons in Hin as [<- | Hin]; [by apply Hout|].
      destruct (print_unknown_categories_spec self h df Hdf) as (fr & Hp & Hsame).
      specialize (Houts frame Hin). rewrite (Hsame h1 (Hold1 _ _ Hdf)) in Houts.
      injection Houts as <-. exact Hp.
Qed.

(** C9. Once the table is stored, any sequence of report calls leaves it
    as it was: the calls run, the object [self._df] refers to is the same
    table afterwards, and so is every object the store held before (the
    sign flip of the chart is written into a frame created by the call).
    [print_unknown_categories] leaves the whole store as it is, prints
    the same frame before and after the sequence, and every frame printed
    within the sequence is that frame. *)
Theorem C9_reports_leave_the_table_unchanged self h df reps
    (Hdf : h !! _df self = Some (ODataFrame df)) :
  exists outs h',
    calls self reps h = Some (outs, h') /\
    h' !! _df self = Some (ODataFrame df) /\
    (forall l o, h !! l = Some o -> h' !! l = Some o) /\
    exists frame,
      print_unknown_categories self h = Some (frame, h) /\
      print_unknown_categories self h' = Some (frame, h') /\
      (forall frame', Printed frame' ∈ outs -> frame' = frame).
Proof.
  destruct (calls_spec self df reps h Hdf) as (outs & h' & Hcalls & Hold & Houts).
  destruct (print_unknown_categories_spec self h df Hdf) as (frame & Hp & Hsame).
  exists outs, h'. split; [exact Hcalls|]. split; [by apply Hold|].
  split; [exact Hold|]. exists frame. split; [exact Hp|].
  split; [by apply Hsame, Hold|].
  intros frame' Hin. specialize (Houts frame' Hin). congruence.
Qed.

End ReportProperties.

(** C7 on the three rows of the example. *)
Lemma C7_expense_summary_witness :
  food_store !! _df food_self = Some (ODataFrame food_rows) /\
  exists c h',
    show_expense_pie_chart food_self food_store = Some (c, h') /\
    NoDup (slices c).*1.
Proof.
  assert (food_store !! _df food_self = Some (ODataFrame food_rows)) as Hdf
    by reflexivity.
  split; [exact Hdf|].
  destruct (@C7_expense_summary decimal_numeric food_self food_store food_rows Hdf)
    as (c & h' & Hrun & _ & Hnodup & _).
  exists c, h'. split; [exact Hrun | exact Hnodup].
Defined.

(** C9 on the object built from [example_statement]: print, chart, print. *)
Lemma C9_reports_leave_the_table_unchanged_witness :
  StatementData__init__ example_statement example_rules ∅
    = Return (example_self, example_store) /\
  example_store !! _df example_self = Some (ODataFrame example_table) /\
  exists outs h',
    calls example_self
      [PrintUnknownCategories; ShowExpensePieChart; PrintUnknownCategories]
      example_store = Some (outs, h') /\
    h' !! _df example_self = Some (ODataFrame example_table).
Proof.
  split; [reflexivity|].
  assert (example_store !! _df example_self = Some (ODataFrame example_table))
    as Hdf by reflexivity.
  split; [exact Hdf|].
  destruct (@C9_reports_leave_the_table_unchanged decimal_numeric example_self
              example_store example_table
              [PrintUnknownCategories; ShowExpensePieChart; PrintUnknownCategories]
              Hdf)
    as (outs & h' & Hrun & Hsame & _).
  exists outs, h'. split; [exact Hrun | exact Hsame].
Defined.

(** ** The claims about the rule loops on concrete rules *)

Lemma overlapping_rules_valid : Forall (@valid_rule sre_engine) overlapping_rules.
Proof. repeat constructor; eexists; reflexivity. Qed.

(** C1 on [overlapping_rules]: the earlier, less specific rule wins. *)
Lemma C1_first_match_in_list_order_witness :
  Forall (@valid_rule sre_engine) overlapping_rules /\
  rule_matches ("ALBERT 123", "Corner shop", "groceries") "ALBERT 123" = true /\
  get_category (__init__ overlapping_rules) (PyStr "ALBERT 123") = Return "food" /\
  get_name (__init__ overlapping_rules) (PyStr "ALBERT 123") = Return "Albert".
Proof.
  split; [exact overlapping_rules_valid|]. split; [reflexivity|].
  apply (proj1 (C1_first_match_in_list_order overlapping_rules "ALBERT 123"
                  overlapping_rules_valid)
               0 ("ALBERT.*", "Albert", "food")).
  apply first_match_here. reflexivity.
Defined.


(** C3 on a counterparty made of metacharacters. *)
Lemma C3_total_on_valid_rules_witness :
  Forall (@valid_rule sre_engine) overlapping_rules /\
  (exists c, get_category (__init__ overlapping_rules) (PyStr ".*(") = Return c) /\
  (exists n, get_name (__init__ overlapping_rules) (PyStr ".*(") = Return n).
Proof.
  split; [exact overlapping_rules_valid|].
  exact (C3_total_on_valid_rules overlapping_rules ".*(" overlapping_rules_valid).
Defined.

(** C10 on a counterparty that no rule matches. *)
Lemma C10_category_and_name_agree_witness :
  Forall (@valid_rule sre_engine) overlapping_rules /\
  (get_category (__init__ overlapping_rules) (PyStr "POS LIDL")
     = Return "unknown category" <->
   get_name (__init__ overlapping_rules) (PyStr "POS LIDL")
     = Return "unknown name").
Proof.
  split; [exact overlapping_rules_valid|].
  apply (proj2 (C10_category_and_name_agree overlapping_rules "POS LIDL"
                  overlapping_rules_valid)).
  intros r Hr. repeat (apply elem_of_cons in Hr as [-> | Hr]; [by split|]).
  inversion Hr.
Defined.

(** * Further properties of the code *)

(** ** The rules file and the rule loops *)

Section RulesFile.

Lemma from_json_loop_Return items :
  forall acc rules,
    from_json_loop items acc = Return rules ->
    exists new, rules = acc ++ new /\ Forall2 record_of items new.
Proof.
  induction items as [|item items IH]; intros acc rules H; simpl in H.
  - injection H as <-. exists []. split; [by rewrite app_nil_r | constructor].
  - apply bind_Return in H as (nm & Hn & H).
    apply bind_Return in H as (regex & Hr & H).
    apply bind_Return in H as (cat & Hc & H).
    apply IH in H as (new & -> & Hnew).
    exists ((regex, nm, cat) :: new). split; [by rewrite <- app_assoc|].
    constructor; [|exact Hnew].
    unfold getitem in Hn, Hr, Hc.
    destruct (item !! "name") eqn:E1; [|discriminate].
    destruct (item !! "regex") eqn:E2; [|discriminate].
    destruct (item !! "category") eqn:E3; [|discriminate].
    injection Hn as ->. injection Hr as ->. injection Hc as ->.
    repeat split; assumption.
Qed.

(** X1. [from_json] returns exactly when every record of the document has
    the keys [name], [regex] and [category]; the rule list then holds one
    rule per record, in the order of the document, made of the values of
    these three keys. Other keys of a record are not read. *)
Theorem from_json_keeps_the_records_in_order document self :
  (from_json document = Return self <->
   Forall2 record_of document (_regex_map self)) /\
  (from_json document = Return self ->
   length (_regex_map self) = length document).
Proof.
  assert (from_json document = Return self ->
          Forall2 record_of document (_regex_map self)) as Hinv.
  { unfold from_json. intros H. apply bind_Return in H as (rules & Hloop & H).
    injection H as <-. apply from_json_loop_Return in Hloop as (new & -> & Hnew).
    exact Hnew. }
  split; [split; [exact Hinv|]|].
  - intros H. destruct self as [rules]. by apply from_json_records.
  - intros H. symmetry. eapply Forall2_length, Hinv, H.
Qed.

Lemma from_json_loop_missing_key good rules item rest key acc :
  Forall2 record_of good rules -> missing_key item = Some key ->
  from_json_loop (good ++ item :: rest) acc = Raise (KeyError key).
Proof.
  intros Hgood Hkey. revert acc.
  induction Hgood as [|item0 r good rules (Hn & Hr & Hc) _ IH]; intros acc.
  - simpl. unfold getitem, missing_key in *.
    destruct (item !! "name"); [|by injection Hkey as <-].
    destruct (item !! "regex"); [|by injection Hkey as <-].
    destruct (item !! "category"); [discriminate | by injection Hkey as <-].
  - simpl. unfold getitem. rewrite Hn, Hr, Hc. simpl. apply IH.
Qed.

(** X2. When the records before it are complete, the first record that
    lacks one of the three keys makes [from_json] raise [KeyError] for
    the first key it lacks, in the order [name], [regex], [category];
    the records after it are not looked at. *)
Theorem from_json_raises_for_the_first_missing_key good rules item rest key
    (Hgood : Forall2 record_of good rules)
    (Hkey : missing_key item = Some key) :
  from_json (good ++ item :: rest) = Raise (KeyError key).
Proof.
  unfold from_json.
  by rewrite (from_json_loop_missing_key good rules item rest key [] Hgood Hkey).
Qed.

End RulesFile.

(** X2 on the examples. *)
Lemma from_json_raises_for_the_first_missing_key_witness :
  Forall2 record_of example_rules (_regex_map example_assigner) /\
  missing_key record_without_regex = Some "regex" /\
  from_json (example_rules ++ record_without_regex :: broken_rules)
    = Raise (KeyError "regex").
Proof.
  assert (Forall2 record_of example_rules (_regex_map example_assigner))
    as Hgood by (repeat constructor; reflexivity).
  assert (missing_key record_without_regex = Some "regex") as Hkey
    by reflexivity.
  split; [exact Hgood|]. split; [exact Hkey|].
  exact (from_json_raises_for_the_first_missing_key example_rules
           (_regex_map example_assigner) record_without_regex broken_rules
           "regex" Hgood Hkey).
Defined.

Section RulesAfterTheMatch.
Context {E : ReEngine}.

(** X3. The rules after the first matching rule are never used: when the
    rules before [r] compile and do not match and [r] matches, the result
    is that of [r] whatever follows it, also a pattern that does not
    compile. *)
Theorem rules_after_the_match_are_not_compiled before r after s
    (Hvalid : Forall valid_rule before)
    (Hnone : no_match before s)
    (Hr : rule_matches r s = true) :
  get_category (__init__ (before ++ r :: after)) (PyStr s)
    = Return (rule_category r) /\
  get_name (__init__ (before ++ r :: after)) (PyStr s)
    = Return (rule_name r).
Proof.
  assert (valid_rule r) as Hrv.
  { unfold valid_rule. unfold rule_matches in Hr.
    destruct (re_compile (rule_regex r)); [eauto | discriminate]. }
  induction Hvalid as [|r0 before Hr0 _ IH]; simpl app.
  - rewrite get_category_cons, get_name_cons, (re_match_valid _ _ Hrv). simpl.
    rewrite Hr. split; reflexivity.
  - apply no_match_cons in Hnone as [H0 Hnone].
    rewrite get_category_cons, get_name_cons, (re_match_valid _ _ Hr0). simpl.
    rewrite H0. apply IH, Hnone.
Qed.

End RulesAfterTheMatch.

(** X3 on the examples. *)
Lemma rules_after_the_match_are_not_compiled_witness :
  Forall (@valid_rule sre_engine) [("LIDL", "Lidl", "food")] /\
  @no_match sre_engine [("LIDL", "Lidl", "food")] "ALBERT 123" /\
  @rule_matches sre_engine ("ALBERT.*", "Albert", "food") "ALBERT 123" = true /\
  @re_compile sre_engine "(" = None /\
  get_category
    (__init__ ([("LIDL", "Lidl", "food")] ++
               ("ALBERT.*", "Albert", "food") :: [("(", "Broken", "misc")]))
    (PyStr "ALBERT 123") = Return "food".
Proof.
  assert (Forall (@valid_rule sre_engine) [("LIDL", "Lidl", "food")]) as Hvalid
    by (repeat constructor; eexists; reflexivity).
  assert (@no_match sre_engine [("LIDL", "Lidl", "food")] "ALBERT 123") as Hnone.
  { intros r Hr. apply elem_of_cons in Hr as [-> | Hr]; [reflexivity|].
    inversion Hr. }
  split; [exact Hvalid|]. split; [exact Hnone|]. split; [reflexivity|].
  split; [reflexivity|].
  exact (proj1 (rules_after_the_match_are_not_compiled
                  [("LIDL", "Lidl", "food")] ("ALBERT.*", "Albert", "food")
                  [("(", "Broken", "misc")] "ALBERT 123" Hvalid Hnone eq_refl)).
Defined.

Section LoopsTogether.
Context {E : ReEngine}.

(** X4. The two loops stop at the same rule: on the same rule list and
    the same argument, [get_name] raises an exception exactly when
    [get_category] raises it, whatever the patterns are. *)
Theorem get_name_raises_when_get_category_does a v e :
  get_category a v = Raise e <-> get_name a v = Raise e.
Proof.
  destruct a as [rules].
  change {| _regex_map := rules |} with (__init__ rules).
  induction rules as [|r rules IH]; [split; discriminate|].
  rewrite get_category_cons, get_name_cons.
  destruct (re_match (rule_regex r) v) as [[|]|e0]; simpl;
    [split; discriminate | exact IH | reflexivity].
Qed.

Lemma first_match_le rules s i r :
  rules !! i = Some r -> rule_matches r s = true ->
  exists j r', j <= i /\ first_match rules s j r'.
Proof.
  revert i. induction rules as [|r0 rules IH]; intros i Hi Hm; [discriminate|].
  destruct (rule_matches r0 s) eqn:H0.
  - exists 0, r0. split; [lia | by apply first_match_here].
  - destruct i as [|i]; simpl in Hi; [congruence|].
    destruct (IH i Hi Hm) as (j & r' & Hj & Hfm).
    exists (S j), r'. split; [lia | by apply first_match_later].
Qed.

End LoopsTogether.

Section SreRules.
Import sre.

Lemma match_extend r s t : match_ r s = true -> match_ r (s +:+ t) = true.
Proof.
  rewrite !match_lang. intros (pre & suf & -> & H).
  exists pre, (suf +:+ t). split; [apply append_assoc | exact H].
Qed.

Lemma rule_matches_extend (r : rule) s t :
  @rule_matches sre_engine r s = true -> @rule_matches sre_engine r (s +:+ t) = true.
Proof.
  unfold rule_matches. simpl. destruct (compile (rule_regex r)); [|discriminate].
  apply match_extend.
Qed.

(** X5. On the patterns of the fragment, text added at the end of a
    counterparty never loses a match: if rule [i] is the first to match
    [s], some rule at a position [j <= i] is the first to match [s]
    followed by [t], and its category and name are returned. A matched
    counterparty does not become unknown by getting longer. *)
Theorem a_longer_counterparty_is_still_matched rules s t i r
    (Hvalid : Forall (@valid_rule sre_engine) rules)
    (Hfm : @first_match sre_engine rules s i r) :
  exists j r',
    j <= i /\ @first_match sre_engine rules (s +:+ t) j r' /\
    get_category (__init__ rules) (PyStr (s +:+ t)) = Return (rule_category r') /\
    get_name (__init__ rules) (PyStr (s +:+ t)) = Return (rule_name r').
Proof.
  destruct Hfm as (Hi & Hm & _).
  destruct (first_match_le rules (s +:+ t) i r Hi (rule_matches_extend _ _ _ Hm))
    as (j & r' & Hj & Hfm').
  exists j, r'. split; [exact Hj|]. split; [exact Hfm'|]. split.
  - eapply get_category_first_match; eassumption.
  - eapply get_name_first_match; eassumption.
Qed.

Lemma parse_loop_plain p : forall cur stack,
  plain p = true ->
  parse_loop p cur stack =
  parse_loop "" {| alts := alts cur;
                   items := fold_left (fun its c => (Chr c, false) :: its)
                              (list_ascii_of_string p) (items cur) |} stack.
Proof.
  induction p as [|c p IH]; intros cur stack Hp.
  - destruct cur. reflexivity.
  - simpl in Hp. apply andb_true_iff in Hp as [Hc Hp].
    apply negb_true_iff in Hc. unfold is_special in Hc.
    repeat (apply orb_false_iff in Hc as [Hc ?]).
    cbn [parse_loop].
    repeat match goal with H : _ = false |- _ => rewrite H; clear H end.
    rewrite IH by exact Hp. reflexivity.
Qed.

Lemma branch_literal p : forall its acc,
  fold_left (fun acc it => Cat (fst it) acc)
    (fold_left (fun its c => (Chr c, false) :: its) (list_ascii_of_string p) its)
    acc =
  fold_left (fun acc it => Cat (fst it) acc) its
    ((fix lit p := match p with
                   | EmptyString => acc
                   | String c p' => Cat (Chr c) (lit p')
                   end) p).
Proof.
  induction p as [|c p IH]; intros its acc; [reflexivity|].
  simpl. rewrite IH. reflexivity.
Qed.

Lemma parse_plain p : plain p = true -> parse p = Parsed (literal p).
Proof.
  intros Hp. unfold parse. rewrite parse_loop_plain by exact Hp.
  simpl. unfold close, branch. simpl. rewrite branch_literal. simpl.
  reflexivity.
Qed.

Lemma lang_literal p w : lang (literal p) w <-> w = p.
Proof.
  revert w. induction p as [|c p IH]; intros w; simpl.
  - split; [intros H; by inversion H | intros ->; constructor].
  - split.
    + intros H. inversion H as [ | | | ? ? s1 s2 H1 H2 | | | | ]; subst.
      inversion H1; subst. apply IH in H2 as ->. reflexivity.
    + intros ->. apply (lang_cat (Chr c) (literal p) (String c "") p);
        [constructor | by apply IH].
Qed.

(** X6. A pattern without special characters matches exactly the
    counterparties that start with it. A rule with such a pattern at the
    head of the list decides for these counterparties and leaves the
    others to the rules after it. *)
Theorem a_plain_pattern_matches_what_starts_with_it p nm cat rules s
    (Hplain : plain p = true) :
  (@re_match sre_engine p (PyStr s) = Return true <-> exists t, s = p +:+ t) /\
  ((exists t, s = p +:+ t) ->
     @get_category sre_engine (__init__ ((p, nm, cat) :: rules)) (PyStr s)
       = Return cat /\
     @get_name sre_engine (__init__ ((p, nm, cat) :: rules)) (PyStr s)
       = Return nm) /\
  (~ (exists t, s = p +:+ t) ->
     @get_category sre_engine (__init__ ((p, nm, cat) :: rules)) (PyStr s)
       = @get_category sre_engine (__init__ rules) (PyStr s) /\
     @get_name sre_engine (__init__ ((p, nm, cat) :: rules)) (PyStr s)
       = @get_name sre_engine (__init__ rules) (PyStr s)).
Proof.
  pose proof (sre_re_match p _ s (parse_plain p Hplain)) as Hre.
  assert (match_ (literal p) s = true <-> exists t, s = p +:+ t) as Hm.
  { rewrite match_lang. split.
    - intros (pre & suf & -> & H). apply lang_literal in H as ->. eauto.
    - intros (t & ->). exists p, t. split; [reflexivity | by apply lang_literal]. }
  rewrite get_category_cons, get_name_cons. cbn [rule_regex rule_category rule_name fst snd].
  rewrite Hre. simpl. split; [|split].
  - rewrite <- Hm. split; congruence.
  - intros Hs. apply Hm in Hs. rewrite Hs. split; reflexivity.
  - intros Hs. destruct (match_ (literal p) s) eqn:Hb; [|split; reflexivity].
    exfalso. apply Hs, Hm. reflexivity.
Qed.

End SreRules.

(** ** Errors and edge cases of the load *)

Section LoadErrors.
Context {E : ReEngine} {N : Numeric}.

Implicit Types (lines : list string) (names : list string)
  (data : list (list string)) (a : CategoryAssigner).

Lemma bind_raises {A B : Type} (m : outcome A) (k : A -> outcome B) :
  (forall x, exists e, k x = Raise e) -> exists e, (x ← m; k x) = Raise e.
Proof. intros Hk. destruct m as [x|e]; simpl; eauto. Qed.

Lemma cell_of_NA w : w ∈ STR_NA_VALUES -> cell_of w = PyNaN.
Proof.
  intros Hw. unfold cell_of.
  assert (existsb (String.eqb w) STR_NA_VALUES = true) as ->; [|reflexivity].
  apply existsb_exists. exists w. split; [by apply list_elem_of_In|].
  apply String.eqb_refl.
Qed.

(** A field that is absent or an NA word is a missing cell. *)
Lemma cell_missing lead i (fields : list string) :
  (forall w, fields !! (lead + i) = Some w -> w ∈ STR_NA_VALUES) ->
  cell lead i fields = PyNaN.
Proof.
  intros H. unfold cell. rewrite nth_lookup, list_lookup_fmap.
  destruct (fields !! (lead + i)) as [w|] eqn:Hw; [|reflexivity].
  simpl. by apply cell_of_NA, H.
Qed.

(** On a missing counterparty the loops return only for the empty rule
    list; otherwise the first rule raises. *)
Lemma get_category_missing a :
  _regex_map a <> [] ->
  exists e, get_category a PyNaN = Raise e /\ (e = re_error \/ e = TypeError).
Proof.
  destruct a as [[|r rules]]; [done|]. intros _.
  change {| _regex_map := r :: rules |} with (__init__ (r :: rules)).
  rewrite get_category_cons. unfold re_match.
  destruct (re_compile (rule_regex r)); simpl; eauto.
Qed.


Lemma filter_all_blank (l : list string) :
  (forall x, x ∈ l -> is_blank x = true) ->
  filter (fun x => negb (is_blank x)) l = [].
Proof.
  induction l as [|x l IH]; intros H; [reflexivity|].
  rewrite filter_cons. rewrite (H x) by (by left). simpl.
  apply IH. intros y Hy. apply H. by right.
Qed.

(** X8. A statement that has nothing but blank lines after its first 17
    lines, in particular one of 17 lines or fewer, cannot be loaded:
    [_parse] raises [EmptyDataError], whatever the rules are. *)
Theorem statement_without_a_line_of_names a lines
    (Hblank : forall l, l ∈ drop 17 lines -> is_blank l = true) :
  _parse a lines = Raise EmptyDataError.
Proof.
  unfold _parse, read_csv, records. by rewrite (filter_all_blank _ Hblank).
Qed.


End LoadErrors.

Section LoadColumns.
Context {E : ReEngine} {N : Numeric}.

Implicit Types (lines : list string) (names : list string)
  (data : list (list string)) (a : CategoryAssigner).

(** [read_csv] raises [ParserError] exactly when a data line is longer
    than the row of names and the index fields together. *)
Lemma read_csv_ParserError lines names data :
  records ";" 17 lines = names :: data ->
  (read_csv lines ";" 17 = Raise ParserError <->
   Exists (fun n => length names + index_width names data < n) (length <$> data)).
Proof.
  intros Hrec. unfold read_csv. rewrite Hrec.
  assert (match data with
          | [] => length names
          | first :: _ => length names `max` length first
          end = length names + index_width names data) as ->.
  { unfold index_width. destruct data; lia. }
  destruct (existsb _ data) eqn:Hex.
  - split; [intros _|reflexivity].
    apply existsb_exists in Hex as (r & Hr & Hlt).
    apply Exists_exists. exists (length r). split.
    + apply list_elem_of_fmap. exists r. split; [reflexivity | by apply list_elem_of_In].
    + by apply Nat.ltb_lt in Hlt.
  - split; [discriminate|]. intros Hex'. exfalso.
    apply Exists_exists in Hex' as (n & Hn & Hlt).
    apply list_elem_of_fmap in Hn as (r & -> & Hr).
    assert (existsb (fun r => length names + index_width names data <? length r)
              data = true) as Habs; [|congruence].
    apply existsb_exists. exists r.
    split; [by apply list_elem_of_In | by apply Nat.ltb_lt].
Qed.

Lemma _parse_ParserError a lines :
  read_csv lines ";" 17 = Raise ParserError -> _parse a lines = Raise ParserError.
Proof. intros H. unfold _parse. by rewrite H. Qed.

Lemma _parse_narrow a lines names data :
  records ";" 17 lines = names :: data ->
  read_csv lines ";" 17 <> Raise ParserError ->
  length names <= 18 -> _parse a lines = Raise IndexError.
Proof.
  intros Hrec Hok Hnarrow.
  destruct (read_csv_records _ _ _ Hrec) as [Hbad | (raw & Hraw & Hcols & _)];
    [contradiction|].
  unfold _parse. rewrite Hraw. simpl. rewrite Hcols.
  apply Nat.leb_le in Hnarrow. by rewrite Hnarrow.
Qed.



Lemma Forall2_sliced lead data (dates : list timestamp) :
  Forall2 (fun fields ts => exists s,
      cell lead 18 fields = PyStr s /\
      to_datetime (date_or_due (cell lead 0 fields) (slice_to 10 s)) = Return ts)
    data dates ->
  exists sliced,
    Forall2 (fun fields s => slice10 (cell lead 18 fields) = Return s) data sliced /\
    Forall2 (fun v ts => to_datetime v = Return ts)
      (zip_with date_or_due (cell lead 0 <$> data) sliced) dates.
Proof.
  induction 1 as [|fields ts data dates (s & Hs & Hts) _ (sliced & H1 & H2)].
  - exists []. split; constructor.
  - exists (slice_to 10 s :: sliced). split.
    + constructor; [by rewrite Hs | exact H1].
    + simpl. constructor; [exact Hts | exact H2].
Qed.


End LoadColumns.

(** ** The dates of a loaded table *)

Section LoadedDates.

Lemma slice_spaces_short n : n <= 10 -> slice_to 10 (spaces n) = spaces n.
Proof. intros H. do 11 (destruct n as [|n]; [reflexivity|]). lia. Qed.

Lemma slice_spaces_long n : 10 <= n -> slice_to 10 (spaces n) = spaces 10.
Proof.
  intros H. replace n with (10 + (n - 10)) by lia. reflexivity.
Qed.

Lemma to_datetime_few_spaces due n :
  n < 10 -> to_datetime (date_or_due due (spaces n)) = Raise ValueError.
Proof. intros H. do 10 (destruct n as [|n]; [reflexivity|]). lia. Qed.

Lemma digit_char_not_space k : k < 10 -> Ascii.eqb (digit_char k) " " = false.
Proof. intros H. do 10 (destruct k as [|k]; [reflexivity|]). lia. Qed.

Lemma slice_text_dmY d t : slice_to 10 (text_dmY d +:+ t) = text_dmY d.
Proof.
  unfold text_dmY, two_digits, four_digits.
  rewrite !append_cons, !append_nil_l. reflexivity.
Qed.

Lemma text_dmY_not_blank d :
  day d < 100 -> String.eqb (text_dmY d) (spaces 10) = false.
Proof.
  intros H. unfold text_dmY, two_digits. rewrite !append_cons.
  cbn [spaces String.eqb].
  rewrite digit_char_not_space; [reflexivity|].
  apply Nat.Div0.div_lt_upper_bound. lia.
Qed.

Lemma is_digit_bound c : is_digit c = true -> digit c <= 9.
Proof.
  unfold is_digit, digit. intros H. apply andb_true_iff in H as [H1 H2].
  apply Nat.leb_le in H1, H2. lia.
Qed.

Lemma is_digit_1_9_bound c : is_digit_1_9 c = true -> 1 <= digit c <= 9.
Proof.
  unfold is_digit_1_9. intros H. apply andb_true_iff in H as [H1 H2].
  pose proof (is_digit_bound c H1) as Hle. split; [|exact Hle].
  unfold is_digit, digit in *. apply andb_true_iff in H1 as [H1 _].
  apply Nat.leb_le in H1.
  destruct (decide (nat_of_ascii c = 48)) as [Heq|]; [|lia].
  exfalso. assert (c = "0"%char) as ->.
  { rewrite <- (ascii_nat_embedding c), Heq. reflexivity. }
  discriminate.
Qed.

Lemma directive_d_bound s n : directive_d s = Some n -> 1 <= n <= 31.
Proof.
  destruct s as [|a [|b [|? ?]]]; simpl; try discriminate.
  - destruct (is_digit_1_9 a) eqn:Ha; [|discriminate]. intros [= <-].
    pose proof (is_digit_1_9_bound a Ha). lia.
  - destruct (Ascii.eqb a "3" && (Ascii.eqb b "0" || Ascii.eqb b "1")) eqn:H3.
    { intros [= <-]. apply andb_true_iff in H3 as [_ Hb].
      apply orb_true_iff in Hb as [Hb | Hb]; apply Ascii.eqb_eq in Hb as ->;
        unfold digit; simpl; lia. }
    destruct ((Ascii.eqb a "1" || Ascii.eqb a "2") && is_digit b) eqn:H12.
    { intros [= <-]. apply andb_true_iff in H12 as [Ha Hb].
      pose proof (is_digit_bound b Hb).
      apply orb_true_iff in Ha as [Ha | Ha]; apply Ascii.eqb_eq in Ha as ->;
        unfold digit at 1; simpl; lia. }
    destruct ((Ascii.eqb a "0" || Ascii.eqb a " ") && is_digit_1_9 b) eqn:H0;
      [|discriminate].
    intros [= <-]. apply andb_true_iff in H0 as [_ Hb].
    pose proof (is_digit_1_9_bound b Hb). lia.
Qed.

Lemma directive_m_bound s n : directive_m s = Some n -> 1 <= n <= 12.
Proof.
  destruct s as [|a [|b [|? ?]]]; simpl; try discriminate.
  - destruct (is_digit_1_9 a) eqn:Ha; [|discriminate]. intros [= <-].
    pose proof (is_digit_1_9_bound a Ha). lia.
  - destruct (Ascii.eqb a "1" &&
              (Ascii.eqb b "0" || Ascii.eqb b "1" || Ascii.eqb b "2")) eqn:H1.
    { intros [= <-]. apply andb_true_iff in H1 as [_ Hb].
      apply orb_true_iff in Hb as [Hb | Hb];
        [apply orb_true_iff in Hb as [Hb | Hb]|];
        apply Ascii.eqb_eq in Hb as ->; unfold digit; simpl; lia. }
    destruct (Ascii.eqb a "0" && is_digit_1_9 b) eqn:H0; [|discriminate].
    intros [= <-]. apply andb_true_iff in H0 as [_ Hb].
    pose proof (is_digit_1_9_bound b Hb). lia.
Qed.

Lemma directive_Y_bound s n : directive_Y s = Some n -> n < 100 * 100.
Proof.
  destruct s as [|a [|b [|c [|d [|? ?]]]]]; unfold directive_Y;
    try discriminate.
  destruct (is_digit a && is_digit b && is_digit c && is_digit d) eqn:H;
    [|discriminate].
  intros [= <-]. apply andb_true_iff in H as [H Hd].
  apply andb_true_iff in H as [H Hc]. apply andb_true_iff in H as [Ha Hb].
  apply is_digit_bound in Ha, Hb, Hc, Hd. lia.
Qed.

(** What [strptime] accepts is a date of the calendar. *)
Lemma strptime_dmY_calendar s d :
  strptime_dmY s = Some d ->
  1 <= year d < 100 * 100 /\ 1 <= month d <= 12 /\
  1 <= day d <= days_in_month (year d) (month d).
Proof.
  unfold strptime_dmY.
  destruct (split "." s) as [|sd [|sm [|sy [|? ?]]]]; try discriminate.
  destruct (directive_d sd) as [dd|] eqn:Hd; [|discriminate].
  destruct (directive_m sm) as [m|] eqn:Hm; [|discriminate].
  destruct (directive_Y sy) as [y|] eqn:Hy; [|discriminate].
  cbn [mbind option_bind].
  destruct ((1 <=? y) && (dd <=? days_in_month y m)) eqn:Hok; [|discriminate].
  intros [= <-]. cbn [year month day].
  apply andb_true_iff in Hok as [H1 H2]. apply Nat.leb_le in H1, H2.
  pose proof (directive_d_bound _ _ Hd). pose proof (directive_m_bound _ _ Hm).
  pose proof (directive_Y_bound _ _ Hy). lia.
Qed.

Lemma to_datetime_Timestamp v d :
  to_datetime v = Return (Timestamp d) ->
  exists s, v = PyStr s /\ strptime_dmY s = Some d.
Proof.
  destruct v as [s|]; simpl; [|discriminate].
  destruct (strptime_dmY s) as [d'|] eqn:Hs; [|discriminate].
  intros [= ->]. exists s. split; [reflexivity | exact Hs].
Qed.

Context {E : ReEngine} {N : Numeric}.

Implicit Types (lines : list string) (a : CategoryAssigner).

(** X13. Every date of a loaded table, transaction date or due date, is
    a date of the calendar: the month is between 1 and 12, the day exists
    in that month of that year (29 February only in leap years), and the
    year has four digits and is not 0. *)
Theorem loaded_dates_are_calendar_dates a lines df d
    (Hload : _parse a lines = Return df)
    (Hin : Timestamp d ∈ date df \/ Timestamp d ∈ due_date df) :
  1 <= year d < 100 * 100 /\ 1 <= month d <= 12 /\
  1 <= day d <= days_in_month (year d) (month d).
Proof.
  destruct (_parse_Return _ _ _ Hload)
    as (names & data & _ & _ & Hd & Hdue & _).
  assert (exists v, to_datetime v = Return (Timestamp d)) as (v & Hv).
  { destruct Hin as [Hin | Hin]; apply list_elem_of_lookup in Hin as [i Hi].
    - eapply Forall2_lookup_r in Hd as (fields & _ & s & _ & Hts); [|exact Hi].
      eauto.
    - eapply Forall2_lookup_r in Hdue as (fields & _ & Hts); [|exact Hi].
      eauto. }
  apply to_datetime_Timestamp in Hv as (s & _ & Hs).
  by apply strptime_dmY_calendar in Hs.
Qed.



End LoadedDates.

Section LoadMissing.
Context {E : ReEngine} {N : Numeric}.

Implicit Types (lines : list string) (names : list string)
  (data : list (list string)) (a : CategoryAssigner).


End LoadMissing.

(** ** The amounts *)

Section Amounts.

Implicit Types (s t : string) (c : ascii).

Lemma is_digit_plain c :
  is_digit c = true ->
  Ascii.eqb c "," = false /\ Ascii.eqb c "." = false /\
  Decimal.parse (String c "") = Decimal.unsigned (String c "") /\
  forall s, Decimal.parse (String c s) = Decimal.unsigned (String c s).
Proof.
  intros H.
  destruct c as [[] [] [] [] [] [] [] []]; try discriminate H;
    repeat split; reflexivity.
Qed.

Lemma all_digits_cons c s :
  all_digits (String c s) = is_digit c && all_digits s.
Proof. reflexivity. Qed.

Lemma all_digits_app s t :
  all_digits s = true -> all_digits t = true -> all_digits (s +:+ t) = true.
Proof.
  intros Hs Ht. induction s as [|c s IH]; [exact Ht|].
  rewrite append_cons, all_digits_cons in *.
  apply andb_true_iff in Hs as [Hc Hs]. by rewrite Hc, IH.
Qed.

Lemma replace_char_app old new s t :
  replace_char old new (s +:+ t) = replace_char old new s +:+ replace_char old new t.
Proof.
  induction s as [|c s IH]; [reflexivity|].
  rewrite append_cons. simpl. by rewrite IH.
Qed.

Lemma replace_char_digits s :
  all_digits s = true -> replace_char "," "." s = s.
Proof.
  induction s as [|c s IH]; [reflexivity|]. rewrite all_digits_cons.
  intros H. apply andb_true_iff in H as [Hc Hs].
  destruct (is_digit_plain c Hc) as (Hcomma & _).
  simpl. by rewrite Hcomma, IH.
Qed.

Lemma split_digits s : all_digits s = true -> split "." s = [s].
Proof.
  induction s as [|c s IH]; [reflexivity|]. rewrite all_digits_cons.
  intros H. apply andb_true_iff in H as [Hc Hs].
  destruct (is_digit_plain c Hc) as (_ & Hpoint & _).
  simpl. by rewrite Hpoint, IH.
Qed.

Lemma digits_value_digits s : forall acc,
  all_digits s = true -> (0 <= acc)%Z ->
  exists u, Decimal.digits_value acc s = Some u /\ (0 <= u)%Z.
Proof.
  induction s as [|c s IH]; intros acc H Hacc; [by exists acc|].
  rewrite all_digits_cons in H. apply andb_true_iff in H as [Hc Hs].
  simpl. rewrite Hc. apply IH; [exact Hs | lia].
Qed.

Lemma unsigned_point i f :
  all_digits i = true -> all_digits f = true -> i <> "" \/ f <> "" ->
  exists u,
    Decimal.digits_value 0 (i +:+ f) = Some u /\ (0 <= u)%Z /\
    Decimal.unsigned (i +:+ String "." f) = Some (Decimal.Dec u (String.length f)).
Proof.
  intros Hi Hf Hne.
  destruct (digits_value_digits (i +:+ f) 0%Z (all_digits_app _ _ Hi Hf))
    as (u & Hu & Hpos); [lia|].
  exists u. split; [exact Hu|]. split; [exact Hpos|].
  unfold Decimal.unsigned.
  rewrite (split_no_sep "." i f (split_digits i Hi)), (split_digits f Hf).
  assert (String.eqb i "" && String.eqb f "" = false) as ->.
  { apply andb_false_iff.
    destruct Hne as [Hne | Hne]; [left | right]; by apply String.eqb_neq. }
  by rewrite Hu.
Qed.

Lemma parse_unsigned_point i f :
  all_digits i = true ->
  Decimal.parse (i +:+ String "." f) = Decimal.unsigned (i +:+ String "." f).
Proof.
  intros Hi. destruct i as [|c i]; [reflexivity|].
  rewrite all_digits_cons in Hi. apply andb_true_iff in Hi as [Hc _].
  rewrite append_cons. by apply is_digit_plain.
Qed.

(** X17. The amount is read with every comma taken as a decimal point:
    digits, a comma and digits are read as the decimal number with these
    integer and fractional digits, exactly as when written with a point,
    and with a minus sign in front as its negative. Example: "-123,45"
    is -123.45. *)
Theorem a_decimal_comma_is_read_as_a_point i f
    (Hi : all_digits i = true) (Hf : all_digits f = true)
    (Hne : i <> "" \/ f <> "") :
  exists u,
    Decimal.digits_value 0 (i +:+ f) = Some u /\ (0 <= u)%Z /\
    @to_numeric decimal_numeric (str_replace (PyStr (i +:+ String "," f)))
      = Return (Decimal.Dec u (String.length f)) /\
    @to_numeric decimal_numeric (str_replace (PyStr (i +:+ String "." f)))
      = Return (Decimal.Dec u (String.length f)) /\
    @to_numeric decimal_numeric (str_replace (PyStr (String "-" (i +:+ String "," f))))
      = Return (Decimal.Dec (- u) (String.length f)).
Proof.
  destruct (unsigned_point i f Hi Hf Hne) as (u & Hu & Hpos & Hun).
  exists u. split; [exact Hu|]. split; [exact Hpos|].
  assert (forall sep, sep = ","%char \/ sep = "."%char ->
            replace_char "," "." (i +:+ String sep f) = i +:+ String "." f)
    as Hrep.
  { intros sep Hsep. rewrite replace_char_app. cbn [replace_char].
    rewrite !replace_char_digits by assumption.
    by destruct Hsep as [-> | ->]. }
  unfold to_numeric, str_replace. cbn [to_numeric_str decimal_numeric].
  split; [|split].
  - rewrite (Hrep ","%char) by auto. rewrite parse_unsigned_point, Hun by exact Hi.
    reflexivity.
  - rewrite (Hrep "."%char) by auto. rewrite parse_unsigned_point, Hun by exact Hi.
    reflexivity.
  - cbn [replace_char]. rewrite (Hrep ","%char) by auto.
    change (Ascii.eqb "-" ",") with false. cbv iota.
    change (Decimal.parse (String "-" (i +:+ String "." f)))
      with (Decimal.neg <$> Decimal.unsigned (i +:+ String "." f)).
    rewrite Hun. reflexivity.
Qed.

End Amounts.

(** ** The contents of the reports and the script *)

Section ReportContents.
Context {E : ReEngine} {N : Numeric}.

Implicit Types (h : store) (self : StatementData) (df : DataFrame)
  (a : CategoryAssigner).

Lemma select_filter_Forall2 {A B : Type} (f : A -> bool) (R : A -> B -> Prop)
    (l : list A) (col : list B) :
  Forall2 R l col ->
  Forall2 R (filter (fun x => f x) l) (select (f <$> l) col).
Proof.
  induction 1 as [|x y l col Hxy _ IH]; [constructor|].
  rewrite filter_cons_bool, fmap_cons. cbn [select].
  destruct (f x); [constructor|]; assumption.
Qed.

Lemma select_filter_fmap {A B : Type} (f : A -> bool) (g : A -> B) (l : list A) :
  select (f <$> l) (g <$> l) = g <$> filter (fun x => f x) l.
Proof.
  induction l as [|x l IH]; [reflexivity|].
  rewrite filter_cons_bool, !fmap_cons. cbn [select].
  destruct (f x); rewrite ?fmap_cons, IH; reflexivity.
Qed.

Lemma unknown_mask a lead (data : list (list string)) (cat : list string) :
  Forall2 (fun fields c => get_category a (cell lead 15 fields) = Return c)
    data cat ->
  (fun c => String.eqb c "unknown category") <$> cat =
  (fun fields => is_unknown a (cell lead 15 fields)) <$> data.
Proof.
  induction 1 as [|fields c data cat Hc _ IH]; [reflexivity|].
  rewrite !fmap_cons, IH. f_equal. unfold is_unknown. by rewrite Hc.
Qed.

Lemma is_unknown_no_match a s :
  Forall valid_rule (_regex_map a) ->
  (forall r, r ∈ _regex_map a -> rule_category r <> "unknown category") ->
  (is_unknown a (PyStr s) = true <-> no_match (_regex_map a) s).
Proof.
  destruct a as [rules]. simpl. intros Hvalid Hcat. unfold is_unknown.
  change {| _regex_map := rules |} with (__init__ rules).
  destruct (first_match_or_none rules s) as [(i & r & Hfm) | Hnone].
  - rewrite (get_category_first_match _ _ _ _ Hvalid Hfm). split.
    + intros Heq. apply String.eqb_eq in Heq. exfalso.
      eapply Hcat; [|exact Heq]. eapply list_elem_of_lookup_2. apply Hfm.
    + intros Hnone. exfalso. destruct Hfm as (Hi & Hm & _).
      rewrite (Hnone r) in Hm; [discriminate|].
      eapply list_elem_of_lookup_2. exact Hi.
  - rewrite (get_category_no_match _ _ Hvalid Hnone). split; [auto|reflexivity].
Qed.


Lemma groupby_sum_expense_rows df :
  groupby_sum
    {| spent_amount := num_neg <$> select (num_lt0 <$> amount df) (amount df);
       spent_category := select (num_lt0 <$> amount df) (category df) |} =
  (fun k => (k, group_sum (magnitudes k df))) <$>
  group_keys (snd <$> expense_rows df).
Proof.
  unfold groupby_sum. cbn [spent_amount spent_category].
  unfold magnitudes, expense_rows. rewrite <- select_categories.
  apply list_fmap_ext. intros _ k _. f_equal. f_equal.
  rewrite select_group. reflexivity.
Qed.

(** X19. The chart is computed from the rows with a negative amount and
    from nothing else: two tables that have the same such rows, with the
    same amounts and categories in the same order, give the same slices
    and the same total, whatever their other rows and columns hold. *)
Theorem the_chart_shows_the_expenses_only self h df self' h' df'
    (Hdf : h !! _df self = Some (ODataFrame df))
    (Hdf' : h' !! _df self' = Some (ODataFrame df'))
    (Hsame : expense_rows df = expense_rows df') :
  fst <$> show_expense_pie_chart self h = fst <$> show_expense_pie_chart self' h'.
Proof.
  destruct (show_expense_pie_chart_spec self h df Hdf) as (h1 & -> & _).
  destruct (show_expense_pie_chart_spec self' h' df' Hdf') as (h1' & -> & _).
  simpl. rewrite !groupby_sum_expense_rows. unfold magnitudes. by rewrite Hsame.
Qed.


End ReportContents.

(** ** The properties above on the examples *)



(** X8 on the examples. *)
Lemma statement_without_a_line_of_names_witness :
  _parse example_assigner (replicate 17 "preamble" ++ [""; "   "])
    = Raise EmptyDataError.
Proof.
  apply statement_without_a_line_of_names.
  intros l Hl. change (l ∈ [""; "   "]) in Hl.
  apply elem_of_cons in Hl as [-> | Hl]; [reflexivity|].
  apply list_elem_of_singleton in Hl as ->. reflexivity.
Defined.




(** X13 on the examples. *)
Lemma loaded_dates_are_calendar_dates_witness :
  _parse example_assigner example_statement = Return example_table /\
  1 <= 14 <= days_in_month 2023 3.
Proof.
  assert (_parse example_assigner example_statement = Return example_table)
    as Hload by reflexivity.
  split; [exact Hload|].
  refine (proj2 (proj2 (loaded_dates_are_calendar_dates example_assigner
                          example_statement example_table
                          {| year := 2023; month := 3; day := 14 |} Hload _))).
  left. apply list_elem_of_here.
Defined.





(** X5 on the examples. *)
Lemma a_longer_counterparty_is_still_matched_witness :
  @first_match sre_engine (_regex_map example_assigner) "LIDL" 1
    ("LIDL", "Lidl", "food") /\
  exists j r',
    j <= 1 /\
    @first_match sre_engine (_regex_map example_assigner) ("LIDL" +:+ " PRAHA") j r'.
Proof.
  assert (Forall (@valid_rule sre_engine) (_regex_map example_assigner))
    as Hvalid by (repeat constructor; eexists; reflexivity).
  assert (@first_match sre_engine (_regex_map example_assigner) "LIDL" 1
            ("LIDL", "Lidl", "food")) as Hfm.
  { split; [reflexivity|]. split; [reflexivity|].
    intros [|j] r' Hj Hr'; [injection Hr' as <-; reflexivity | lia]. }
  split; [exact Hfm|].
  destruct (a_longer_counterparty_is_still_matched _ "LIDL" " PRAHA" 1 _
              Hvalid Hfm) as (j & r' & Hj & Hfm' & _).
  exists j, r'. split; [exact Hj | exact Hfm'].
Defined.

(** X6 on the examples. *)
Lemma a_plain_pattern_matches_what_starts_with_it_witness :
  plain "LIDL" = true /\
  @get_category sre_engine (__init__ [("LIDL", "Lidl", "food")])
    (PyStr "LIDL PRAHA") = Return "food".
Proof.
  split; [reflexivity|].
  refine (proj1 (proj1 (proj2 (a_plain_pattern_matches_what_starts_with_it
                                 "LIDL" "Lidl" "food" [] "LIDL PRAHA" eq_refl))
                   _)).
  exists " PRAHA". reflexivity.
Defined.


(** X19 on the examples. *)
Lemma the_chart_shows_the_expenses_only_witness :
  expense_rows food_rows = expense_rows food_expenses /\
  fst <$> show_expense_pie_chart food_self food_store =
  fst <$> show_expense_pie_chart food_self food_expenses_store.
Proof.
  split; [reflexivity|].
  exact (the_chart_shows_the_expenses_only food_self food_store food_rows
           food_self food_expenses_store food_expenses eq_refl eq_refl eq_refl).
Defined.

(** X17 on the examples. *)
Lemma a_decimal_comma_is_read_as_a_point_witness :
  all_digits "123" = true /\ all_digits "45" = true /\
  @to_numeric decimal_numeric (str_replace (PyStr "-123,45"))
    = Return (Decimal.Dec (-12345) 2).
Proof.
  split; [reflexivity|]. split; [reflexivity|].
  destruct (a_decimal_comma_is_read_as_a_point "123" "45" eq_refl eq_refl)
    as (u & Hu & _ & _ & _ & Hneg); [by left|].
  injection Hu as <-. exact Hneg.
Defined.
